(** * BAN versioned resources: resource views, identifier coercion,
      optimistic locking and version history.

    Shallow embedding of [ban/core/resource.py] and [ban/core/models.py],
    together with a model of the versioning layer those modules import
    ([ban/core/versioning.py]). *)

From Stdlib Require Import ZArith Lia Ascii String List.
From stdpp Require Import base option list strings gmap fin_maps.

Local Open Scope string_scope.
Local Open Scope list_scope.
Local Open Scope Z_scope.

(** ** Python values *)

Inductive attr_kind : Type :=
| Field                      (* a column: peewee field *)
| ManyToManyField            (* db.ManyToManyField *)
| ReverseRelationDescriptor  (* peewee back reference *)
| SelectQueryAttr            (* a peewee.SelectQuery class attribute *)
| Property.                  (* property or method *)

(** What the metaclass [BaseResource] leaves on a class: the lists it
    merges, and the class attributes that [getattr(cls, name)] finds. *)
Record model : Type := MkModel {
  name : string;
  identifiers : list string;
  resource_fields : list string;
  exclude_for_collection : list string;
  exclude_for_version : list string;
  class_attrs : list (string * attr_kind);
}.

(** Python objects as the code handles them.  A dict is an association
    list with unique keys, in insertion order; [VObj] is a model instance
    with the attributes [getattr] finds on it. *)
#[warnings="-register-all"]
Inductive value : Type :=
| VNone
| VBool (b : bool)
| VInt (z : Z)
| VStr (s : string)
| VList (l : list value)
| VDict (d : list (string * value))
| VObj (cls : model) (attrs : list (string * value)).

Abbreviation dict := (list (string * value)).

#[global] Instance attr_kind_eq_dec : EqDecision attr_kind.
Proof. solve_decision. Defined.

#[global] Instance model_eq_dec : EqDecision model.
Proof. solve_decision. Defined.

Definition value_eq_dec_fix : forall x y : value, {x = y} + {x <> y}.
Proof.
  fix IH 1.
  assert (IHl : forall l1 l2 : list value, {l1 = l2} + {l1 <> l2}).
  { intros l1 l2. apply List.list_eq_dec. exact IH. }
  assert (IHd : forall d1 d2 : dict, {d1 = d2} + {d1 <> d2}).
  { intros d1 d2. apply List.list_eq_dec.
    intros [k1 v1] [k2 v2].
    destruct (String.string_dec k1 k2) as [->|Hk];
      [destruct (IH v1 v2) as [->|Hv]|]; [left|right|right]; congruence. }
  intros x y. destruct x, y; try (right; discriminate).
  - left; reflexivity.
  - destruct (Bool.bool_dec b b0) as [->|]; [left|right]; congruence.
  - destruct (Z.eq_dec z z0) as [->|]; [left|right]; congruence.
  - destruct (String.string_dec s s0) as [->|]; [left|right]; congruence.
  - destruct (IHl l l0) as [->|]; [left|right]; congruence.
  - destruct (IHd d d0) as [->|]; [left|right]; congruence.
  - destruct (model_eq_dec cls cls0) as [->|];
      [destruct (IHd attrs attrs0) as [->|]|]; [left|right|right]; congruence.
Defined.

#[global] Instance value_eq_dec : EqDecision value := value_eq_dec_fix.

(** [value is None] *)
Definition is_none (v : value) : bool :=
  match v with VNone => true | _ => false end.

(** Python truth value, as tested by [if new:] and [not identifier]. *)
Definition truthy (v : value) : bool :=
  match v with
  | VNone => false
  | VBool b => b
  | VInt z => negb (z =? 0)
  | VStr s => negb (String.eqb s "")
  | VList l => match l with [] => false | _ => true end
  | VDict d => match d with [] => false | _ => true end
  | VObj _ _ => true
  end.

(** ** Dicts *)

Fixpoint dict_get (k : string) (d : dict) : option value :=
  match d with
  | [] => None
  | (k', v) :: d' => if String.eqb k k' then Some v else dict_get k d'
  end.

(** [d[k] = v] *)
Fixpoint dict_set (k : string) (v : value) (d : dict) : dict :=
  match d with
  | [] => [(k, v)]
  | (k', v') :: d' =>
      if String.eqb k k' then (k, v) :: d' else (k', v') :: dict_set k v d'
  end.

(** ** Strings *)

(** [s.split(sep)] for a one-character separator: never empty. *)
Fixpoint split (sep : ascii) (s : string) : list string :=
  match s with
  | EmptyString => [EmptyString]
  | String c s' =>
      if Ascii.eqb c sep then EmptyString :: split sep s'
      else match split sep s' with
           | [] => [String c EmptyString]
           | w :: ws => String c w :: ws
           end
  end.

Definition lower_ascii (c : ascii) : ascii :=
  let n := nat_of_ascii c in
  if ((65 <=? n) && (n <=? 90))%nat then ascii_of_nat (n + 32) else c.

(** [s.lower()] on ASCII class names *)
Fixpoint lower (s : string) : string :=
  match s with
  | EmptyString => EmptyString
  | String c s' => String (lower_ascii c) (lower s')
  end.

(** [name in names] *)
Definition mem (x : string) (l : list string) : bool :=
  existsb (String.eqb x) l.

(** ** Exceptions and results *)

(** The argument of a [DoesNotExist]: the text ["Invalid identifier {}"]
    that [coerce] formats, or the text peewee builds from a query that
    matched no row. *)
Inductive dne_args : Type :=
| InvalidIdentifierMsg (identifier : string)
| NoMatchMsg (field : string) (v : value).

(** [DoesNotExist c _] is the exception class [c.DoesNotExist]. *)
Inductive exn : Type :=
| DoesNotExist (cls : string) (args : dne_args)
| AttributeError (attr : string)
| ValidationError (msg : string)              (* ban.core.exceptions *)
| IntegrityError (column : string)
| Conflict (locked persisted : Z).

Inductive result (A : Type) : Type :=
| Ok (a : A)
| Raise (e : exn).
Arguments Ok {A} a.
Arguments Raise {A} e.

#[global] Instance result_ret : MRet result := fun A a => Ok a.
#[global] Instance result_bind : MBind result := fun A B k m =>
  match m with Ok a => k a | Raise e => Raise e end.
#[global] Instance result_fmap : FMap result := fun A B f m =>
  match m with Ok a => Ok (f a) | Raise e => Raise e end.

(** [for x in l: acc = body(x, acc)], stopping at the first exception. *)
Fixpoint for_each {A S : Type} (body : A -> S -> result S) (l : list A) (acc : S)
  : result S :=
  match l with
  | [] => Ok acc
  | x :: l' =>
      match body x acc with
      | Ok acc' => for_each body l' acc'
      | Raise e => Raise e
      end
  end.

(** ** The metaclass [BaseResource] *)

Definition class_getattr (cls : model) (n : string) : option attr_kind :=
  snd <$> List.find (fun p => String.eqb n (fst p)) (class_attrs cls).

Definition include_field_for_collection (cls : model) (n : string) : bool :=
  if mem n (exclude_for_collection cls) then false
  else match class_getattr cls n with
       | None => false
       | Some (ManyToManyField | ReverseRelationDescriptor | SelectQueryAttr) => false
       | Some _ => true
       end.

Definition collection_fields (cls : model) : list string :=
  List.filter (include_field_for_collection cls) (resource_fields cls) ++ ["resource"].

Definition versioned_fields (cls : model) : list string :=
  List.filter (fun n => negb (mem n (exclude_for_version cls))) (resource_fields cls).

(** [own.extend(inherited)] when the class body declares the list,
    the inherited list otherwise. *)
Definition inherit_extend (own : option (list string)) (inherited : list string)
  : list string :=
  match own with
  | Some l => l ++ inherited
  | None => inherited
  end.

(** [BaseResource.__new__]: the class [n] derived from [base], whose body
    declares the given lists (or not) and the attributes [attrs]. *)
Definition new_class (base : model) (n : string)
    (ids own_fields own_excl_coll own_excl_ver : option (list string))
    (attrs : list (string * attr_kind)) : model :=
  {| name := n;
     identifiers := default (identifiers base) ids;
     resource_fields := inherit_extend own_fields (resource_fields base);
     exclude_for_collection := inherit_extend own_excl_coll (exclude_for_collection base);
     exclude_for_version := inherit_extend own_excl_ver (exclude_for_version base);
     class_attrs := attrs ++ class_attrs base |}.

(** ** The classes of [ban/core/models.py] *)

(** Modelled from the spec: [db.Model] ([ban/db/model.py] is missing), the
    root class; it only brings the internal key [pk]. *)
Definition db_Model : model :=
  {| name := "Model"; identifiers := []; resource_fields := [];
     exclude_for_collection := []; exclude_for_version := [];
     class_attrs := [("pk", Field)] |}.

Definition ResourceModel : model :=
  new_class db_Model "ResourceModel"
    (Some []) (Some ["id"]) (Some []) (Some [])
    [("id", Field); ("resource", Property); ("as_resource", Property);
     ("as_relation", Property); ("as_version", Property)].

(** [Model(ResourceModel, Versioned)]; the columns of [Versioned] are the
    metadata named by [Model.resource_fields]. *)
Definition Model : model :=
  new_class ResourceModel "Model" None
    (Some ["version"; "created_at"; "created_by"; "modified_at";
           "modified_by"; "attributes"])
    (Some ["created_at"; "created_by"; "modified_at"; "modified_by"])
    None
    [("attributes", Field); ("version", Field); ("created_at", Field);
     ("created_by", Field); ("modified_at", Field); ("modified_by", Field)].

Definition NamedModel : model :=
  new_class Model "NamedModel" None None None None
    [("name", Field); ("alias", Field)].

Definition Municipality : model :=
  new_class NamedModel "Municipality"
    (Some ["siren"; "insee"])
    (Some ["name"; "alias"; "insee"; "siren"; "postcodes"])
    None
    (Some ["postcodes"])
    [("insee", Field); ("siren", Field); ("municipality", Property)].

Definition Group : model :=
  new_class NamedModel "Group"
    (Some ["fantoir"; "laposte"; "ign"])
    (Some ["name"; "alias"; "fantoir"; "municipality"; "kind";
           "laposte"; "ign"; "addressing"])
    None None
    [("kind", Field); ("addressing", Field); ("fantoir", Field);
     ("laposte", Field); ("ign", Field); ("municipality", Field);
     ("housenumbers", Property)].

Definition PostCode : model :=
  new_class NamedModel "PostCode" None
    (Some ["code"; "name"; "alias"; "complement"; "municipality"])
    None None
    [("complement", Field); ("code", Field); ("municipality", Field);
     ("housenumbers", Property)].

Definition HouseNumber : model :=
  new_class Model "HouseNumber"
    (Some ["cia"; "laposte"; "ign"])
    (Some ["number"; "ordinal"; "parent"; "cia"; "laposte"; "ancestors";
           "positions"; "ign"; "postcode"])
    None None
    [("number", Field); ("ordinal", Field); ("parent", Field); ("cia", Field);
     ("laposte", Field); ("ign", Field); ("ancestors", ManyToManyField);
     ("postcode", Field); ("municipality", Property); ("as_export", Property)].

Definition Position : model :=
  new_class Model "Position"
    (Some ["laposte"; "ign"])
    (Some ["center"; "source"; "housenumber"; "kind"; "comment"; "parent";
           "positioning"; "name"; "ign"; "laposte"])
    None None
    [("name", Field); ("center", Field); ("housenumber", Field);
     ("parent", Field); ("source", Field); ("kind", Field);
     ("positioning", Field); ("ign", Field); ("laposte", Field);
     ("comment", Field); ("validate", Property); ("municipality", Property)].

(** ** Instances and their serialized views ([ResourceModel]) *)

Record instance : Type := Instance {
  inst_cls : model;
  inst_attrs : dict;
}.

Definition obj (self : instance) : value :=
  VObj (inst_cls self) (inst_attrs self).

(** [self.resource] *)
Definition resource (self : instance) : string :=
  lower (name (inst_cls self)).

(** [getattr(self, n)] on an instance whose attributes are set: the
    read-only property [resource], then what the instance holds (for a
    column its value or its default, for a foreign key the related
    instance, for a back-reference its rows).  A column the instance
    holds nothing for reads [None], as after [self.n = None].  peewee's
    descriptor of a required foreign key raises the [DoesNotExist] of the
    related class when the key was never set: an instance in that state
    is outside this model. *)
Definition getattr (self : instance) (n : string) : result value :=
  if String.eqb n "resource" then Ok (VStr (resource self))
  else match dict_get n (inst_attrs self) with
       | Some v => Ok v
       | None =>
           match class_getattr (inst_cls self) n with
           | Some Field => Ok VNone
           | _ => Raise (AttributeError n)
           end
       end.

(** [getattr(x, n, dflt)]: only [AttributeError] selects the default. *)
Definition or_default {A : Type} (r : result A) (dflt : A) : result A :=
  match r with
  | Raise (AttributeError _) => Ok dflt
  | _ => r
  end.

(** [getattr(v, n, dflt)] on any Python value. *)
Definition getattr_value (v : value) (n : string) (dflt : value) : result value :=
  match v with
  | VObj c a => or_default (getattr (Instance c a) n) dflt
  | _ => Ok dflt
  end.

Definition compact_field (self : instance) (n : string) : result value :=
  dflt ← getattr self n;
  v ← or_default (getattr self (n +:+ "_compact")) dflt;
  getattr_value v "id" v.

(** The loop body shared by [as_resource] and [as_relation]. *)
Definition keep_not_none (field : instance -> string -> result value)
    (self : instance) (n : string) (out : dict) : result dict :=
  v ← field self n;
  if is_none v then Ok out else Ok (dict_set n v out).

Definition as_relation (self : instance) : result dict :=
  for_each (keep_not_none compact_field self)
           (collection_fields (inst_cls self)) [].

(** [getattr(v, 'as_relation', v)] *)
Definition relation_or_self (v : value) : result value :=
  match v with
  | VObj c a => or_default (VDict <$> as_relation (Instance c a)) v
  | _ => Ok v
  end.

Definition extended_field (self : instance) (n : string) : result value :=
  dflt ← getattr self n;
  v ← or_default (getattr self (n +:+ "_extended")) dflt;
  relation_or_self v.

Definition as_resource (self : instance) : result dict :=
  for_each (keep_not_none extended_field self)
           (resource_fields (inst_cls self)) [].

Definition as_version (self : instance) : result dict :=
  for_each (fun f out => v ← compact_field self f; Ok (dict_set f v out))
           (versioned_fields (inst_cls self)) [].

(** [make_id], given the hexadecimal digits drawn by [uuid.uuid4()]. *)
Definition make_id (cls : model) (uuid_hex : string) : string :=
  "ban-" +:+ lower (name cls) +:+ "-" +:+ uuid_hex.


(** ** Storage access: queries leave a trace *)

Inductive event : Type :=
| EvGet (cls : string) (field : string) (v : value)     (* cls.get(field == v) *)
| EvFollow (cls : string) (field : string) (v : value). (* IdentifierRedirect.follow *)

Definition io (A : Type) : Type := (list event * result A)%type.

#[global] Instance io_ret : MRet io := fun A a => ([], Ok a).
#[global] Instance io_bind : MBind io := fun A B k m =>
  match m with
  | (t, Ok a) => let '(t', r) := k a in (t ++ t', r)
  | (t, Raise e) => (t, Raise e)
  end.

Definition raise {A : Type} (e : exn) : io A := ([], Raise e).

Definition lift {A : Type} (r : result A) : io A := ([], r).

(** [try: m  except <catches> as e: handler e] *)
Definition try_except {A : Type} (m : io A) (catches : exn -> bool)
    (handler : exn -> io A) : io A :=
  match m with
  | (t, Raise e) =>
      if catches e then let '(t', r) := handler e in (t ++ t', r)
      else (t, Raise e)
  | _ => m
  end.

(** [except cls.DoesNotExist] *)
Definition is_DoesNotExist (cls : model) (e : exn) : bool :=
  match e with
  | DoesNotExist c _ => String.eqb c (name cls)
  | _ => false
  end.

(** [getattr(cls, n)] *)
Definition cls_getattr (cls : model) (n : string) : result attr_kind :=
  match class_getattr cls n with
  | Some k => Ok k
  | None => Raise (AttributeError n)
  end.

(** [not identifier] for the optional argument of [coerce] *)
Definition not_given (identifier : option string) : bool :=
  match identifier with
  | None => true
  | Some i => String.eqb i ""
  end.

Section Storage.

(** [get cls field v]: the first row of [cls] with [field == v], if any
    (peewee's [cls.get], which raises [cls.DoesNotExist] on [None]). *)
Variable get : model -> string -> value -> option instance.

(** [IdentifierRedirect.follow(cls, identifier, old)], of
    [ban/core/versioning.py]: whatever value it returns. *)
Variable follow : model -> string -> value -> value.

(** [cls.get(getattr(cls, identifier) == id)] *)
Definition cls_get (cls : model) (identifier : string) (id : value) : io instance :=
  _ ← lift (cls_getattr cls identifier);
  ([EvGet (name cls) identifier id],
   match get cls identifier id with
   | Some row => Ok row
   | None => Raise (DoesNotExist (name cls) (NoMatchMsg identifier id))
   end).

Definition cls_follow (cls : model) (identifier : string) (id : value) : io value :=
  ([EvFollow (name cls) identifier id], Ok (follow cls identifier id)).

Definition coerce (cls : model) (id : value) (identifier : option string)
  : io instance :=
  '(identifier, id) ←
    (if not_given identifier then
       let identifier := "id" in
       match id with
       | VStr s =>
           let parts := split ":" s in
           let extra := List.removelast parts in
           let id := List.last parts "" in
           let identifier :=
             match extra with
             | e :: _ => e
             | [] => identifier
             end in
           if negb (mem identifier (identifiers cls ++ ["id"; "pk"]))
           then raise (DoesNotExist (name cls) (InvalidIdentifierMsg identifier))
           else mret (identifier, VStr id)
       | _ => mret (identifier, id)
       end
     else mret (default "" identifier, id));
  try_except (cls_get cls identifier id) (is_DoesNotExist cls)
    (fun e =>
       new ← cls_follow cls identifier id;
       if truthy new then cls_get cls identifier new
       else raise e).

(** The [try] block of [coerce], once the identifier and the value are
    settled. *)
Definition lookup_or_redirect (cls : model) (identifier : string) (id : value)
  : io instance :=
  try_except (cls_get cls identifier id) (is_DoesNotExist cls)
    (fun e =>
       new ← cls_follow cls identifier id;
       if truthy new then cls_get cls identifier new
       else raise e).

(** The five ways the [try] block ends. *)
Inductive lookup_outcome (cls : model) (k : string) (v : value)
  : io instance -> Prop :=
| LoNoAttr :
    class_getattr cls k = None ->
    lookup_outcome cls k v ([], Raise (AttributeError k))
| LoHit row :
    get cls k v = Some row ->
    lookup_outcome cls k v ([EvGet (name cls) k v], Ok row)
| LoNoRedirect :
    get cls k v = None -> truthy (follow cls k v) = false ->
    lookup_outcome cls k v
      ([EvGet (name cls) k v; EvFollow (name cls) k v],
       Raise (DoesNotExist (name cls) (NoMatchMsg k v)))
| LoRedirectHit row :
    get cls k v = None -> truthy (follow cls k v) = true ->
    get cls k (follow cls k v) = Some row ->
    lookup_outcome cls k v
      ([EvGet (name cls) k v; EvFollow (name cls) k v;
        EvGet (name cls) k (follow cls k v)],
       Ok row)
| LoRedirectMiss :
    get cls k v = None -> truthy (follow cls k v) = true ->
    get cls k (follow cls k v) = None ->
    lookup_outcome cls k v
      ([EvGet (name cls) k v; EvFollow (name cls) k v;
        EvGet (name cls) k (follow cls k v)],
       Raise (DoesNotExist (name cls) (NoMatchMsg k (follow cls k v)))).

End Storage.

(** [c in s] *)
Fixpoint contains (c : ascii) (s : string) : bool :=
  match s with
  | EmptyString => false
  | String c' s' => Ascii.eqb c' c || contains c s'
  end.

Definition is_follow (ev : event) : bool :=
  match ev with EvFollow _ _ _ => true | EvGet _ _ _ => false end.

(** The result is a row or one of the two exceptions of a lookup. *)
Definition row_or_lookup_error (cls : model) (r : result instance) : bool :=
  match r with
  | Ok _ => true
  | Raise (DoesNotExist c _) => String.eqb c (name cls)
  | Raise (AttributeError _) => true
  | Raise _ => false
  end.

Definition is_get (ev : event) : bool :=
  match ev with EvGet _ _ _ => true | EvFollow _ _ _ => false end.

(** Every declared identifier, [id] and [pk] name an attribute of the class. *)
Definition identifiers_are_attrs (cls : model) : bool :=
  forallb (fun k => bool_decide (is_Some (class_getattr cls k)))
          (identifiers cls ++ ["id"; "pk"]).

(** ** A table of rows and redirect records *)

Record redirect : Type := Redirect {
  redirect_model : string;
  redirect_identifier : string;
  redirect_old : value;
  redirect_new : value;
}.

Record database : Type := Database {
  db_rows : list instance;
  db_redirects : list redirect;
}.

(** The first row of the class whose attribute equals the value. *)
Definition db_get (db : database) (cls : model) (field : string) (v : value)
  : option instance :=
  List.find
    (fun row =>
       bool_decide (inst_cls row = cls) &&
       match getattr row field with
       | Ok w => bool_decide (w = v)
       | Raise _ => false
       end)
    (db_rows db).

(** Modelled from the spec: [IdentifierRedirect.follow]
    ([ban/core/versioning.py] is not part of the sources).  Looks up the
    redirect record keyed by (entity kind, identifier kind, value) and
    returns its current value, or [None] when no record exists. *)
Definition db_follow (db : database) (cls : model) (field : string) (v : value)
  : value :=
  match List.find
          (fun r =>
             String.eqb (redirect_model r) (name cls) &&
             String.eqb (redirect_identifier r) field &&
             bool_decide (redirect_old r = v))
          (db_redirects db)
  with
  | Some r => redirect_new r
  | None => VNone
  end.

Definition db_coerce (db : database) := coerce (db_get db) (db_follow db).

(** Sample data *)

Definition paris : instance :=
  Instance Municipality
    [("pk", VInt 1); ("id", VStr "ban-municipality-75"); ("version", VInt 1);
     ("name", VStr "Paris"); ("insee", VStr "75056"); ("siren", VNone);
     ("postcodes", VList [VStr "75001"; VStr "75002"])].

Definition orvanne : instance :=
  Instance Municipality
    [("pk", VInt 2); ("id", VStr "ban-municipality-77"); ("version", VInt 2);
     ("name", VStr "Orvanne"); ("insee", VStr "77316")].

Definition rue : instance :=
  Instance Group
    [("pk", VInt 1); ("id", VStr "ban-group-1"); ("version", VInt 1);
     ("name", VStr "Rue des Pommes"); ("municipality", obj paris)].

Definition impasse : instance :=
  Instance Group
    [("pk", VInt 2); ("id", VStr "ban-group-2"); ("version", VInt 1);
     ("name", VStr "Impasse des Poires"); ("ign", VStr "BD:0042")].

(** Moret-sur-Loing (insee 77999, a made-up former code) became Orvanne. *)
Definition sample_db : database :=
  Database [paris; orvanne; rue; impasse]
    [Redirect "Municipality" "insee" (VStr "77999") (VStr "77316")].

(** A chain 77001 -> 77002 -> 77316 of redirects, and a two-cycle. *)
Definition chain_db : database :=
  Database [paris; orvanne]
    [Redirect "Municipality" "insee" (VStr "77001") (VStr "77002");
     Redirect "Municipality" "insee" (VStr "77002") (VStr "77316");
     Redirect "Municipality" "insee" (VStr "11111") (VStr "22222");
     Redirect "Municipality" "insee" (VStr "22222") (VStr "11111")].

(** * Versioned entities *)

(** Modelled from the spec: the versioning layer, [ban/core/versioning.py],
    is not part of the sources.  What follows is the design of the spec's
    sections 3, 4.1 to 4.3 and 6: entities with an optimistic lock, the
    append-only log of snapshots, and the diff between adjacent snapshots.
    The payload of a snapshot is [as_version] of [ban/core/resource.py]. *)

(** Modelled from the spec: the Entity of section 3 (the class [Versioned]
    is missing), as loaded in a session.  [locked_version] is transient. *)
Record entity : Type := Entity {
  ent_cls : model;
  ent_id : string;
  version : Z;
  locked_version : Z;
  fields : dict;
}.

(** Modelled from the spec: the persisted row of an entity, with its
    [version] column and its field values (section 3). *)
Record row : Type := Row {
  row_cls : model;
  row_version : Z;
  row_fields : dict;
}.

(** Modelled from the spec: the Version (snapshot) of section 3 (the class
    [Version] is missing); [sequence] is the entity's version when the
    snapshot was taken. *)
Record snapshot : Type := Snapshot {
  snap_cls : model;
  entity_id : string;
  sequence : Z;
  payload : dict;
  snap_author : value;
  snap_timestamp : Z;
}.

(** Modelled from the spec: the storage engine of section 6, holding the
    rows by entity id and the append-only log of snapshots. *)
Record store : Type := Store {
  rows : gmap string row;
  versions : list snapshot;     (* append-only, oldest first *)
}.

Definition empty_store : store := Store ∅ [].

(** State and exceptions *)
Definition st (A : Type) : Type := store -> store * result A.

#[global] Instance st_ret : MRet st := fun A a s => (s, Ok a).
#[global] Instance st_bind : MBind st := fun A B k m s =>
  match m s with
  | (s', Ok a) => k a s'
  | (s', Raise e) => (s', Raise e)
  end.

Definition st_raise {A : Type} (e : exn) : st A := fun s => (s, Raise e).

Definition st_lift {A : Type} (r : result A) : st A := fun s => (s, r).

(** One atomic storage operation: an exception rolls the store back. *)
Definition atomic {A : Type} (m : st A) : st A := fun s =>
  match m s with
  | (s', Ok a) => (s', Ok a)
  | (_, Raise e) => (s, Raise e)
  end.

(** The row of class [cls] with the given [id]. *)
Definition select_row (cls : model) (id : string) : st row := fun s =>
  match rows s !! id with
  | Some r =>
      if bool_decide (row_cls r = cls) then (s, Ok r)
      else (s, Raise (DoesNotExist (name cls) (NoMatchMsg "id" (VStr id))))
  | None => (s, Raise (DoesNotExist (name cls) (NoMatchMsg "id" (VStr id))))
  end.

Definition update_row (id : string) (r : row) : st unit := fun s =>
  (Store (<[id := r]> (rows s)) (versions s), Ok tt).

Definition insert_snapshot (v : snapshot) : st unit := fun s =>
  (Store (rows s) (versions s ++ [v]), Ok tt).

(** The instance the resource views see: the columns, [id] and [version]. *)
Definition view (e : entity) : instance :=
  Instance (ent_cls e)
    (dict_set "version" (VInt (version e))
       (dict_set "id" (VStr (ent_id e)) (fields e))).

(** Modelled from the spec: the created/modified metadata of section 3,
    an author and a time, set on create and on every save.  [Model] lists
    them, with [version], among its resource fields
    ([ban/core/models.py]), so every payload records them. *)
Definition metadata_fields : list string :=
  ["version"; "created_at"; "created_by"; "modified_at"; "modified_by"].

(** The snapshots of an entity, in the order of the log. *)
Definition versions_of (s : store) (id : string) : list snapshot :=
  List.filter (fun v => String.eqb (entity_id v) id) (versions s).

(** Modelled from the spec: who created the entity and when, as its first
    snapshot recorded it; the save under way for an entity with no
    snapshot yet. *)
Definition created (s : store) (id : string) (author : value) (now : Z)
  : value * Z :=
  match versions_of s id with
  | first :: _ => (snap_author first, snap_timestamp first)
  | [] => (author, now)
  end.

(** Modelled from the spec: the entity as a save by [author] at [now]
    stamps it, [created_*] being kept from its creation. *)
Definition stamped (e : entity) (created : value * Z) (author : value)
    (now : Z) : instance :=
  Instance (ent_cls e)
    (dict_set "modified_by" author
       (dict_set "modified_at" (VInt now)
          (dict_set "created_by" (fst created)
             (dict_set "created_at" (VInt (snd created))
                (inst_attrs (view e)))))).

(** *** Optimistic lock (4.1) *)

(** Modelled from the spec: [acquire] of section 4.1 (missing from the
    sources) records the version observed at load time. *)
Definition acquire (e : entity) : entity :=
  Entity (ent_cls e) (ent_id e) (version e) (version e) (fields e).

Definition load_row (id : string) (r : row) : entity :=
  acquire (Entity (row_cls r) id (row_version r) 0 (row_fields r)).

(** Modelled from the spec: fetching by [get] acquires the lock. *)
Definition fetch (cls : model) (id : string) : st entity :=
  r ← select_row cls id; mret (load_row id r).

(** Modelled from the spec: fetching by [select] acquires the lock on
    every entity of the class. *)
Definition select (cls : model) (s : store) : list entity :=
  (fun p => load_row (fst p) (snd p)) <$>
    List.filter (fun p => bool_decide (row_cls (snd p) = cls))
                (map_to_list (rows s)).

(** Modelled from the spec: [commit] of section 4.1 (missing from the
    sources) compares the persisted version with the locked one, then
    writes the row with the next version and the new field values;
    otherwise it raises [Conflict]. *)
Definition commit (e : entity) : st entity :=
  r ← select_row (ent_cls e) (ent_id e);
  if bool_decide (row_version r = locked_version e) then
    let next := locked_version e + 1 in
    _ ← update_row (ent_id e) (Row (ent_cls e) next (fields e));
    mret (Entity (ent_cls e) (ent_id e) next (locked_version e) (fields e))
  else st_raise (Conflict (locked_version e) (row_version r)).

(** *** Version store (4.2) *)

(** Modelled from the spec: [append] of section 4.2 (missing from the
    sources) stamps the entity with the metadata of the save, extracts
    the versioned fields and appends them with the new version number as
    sequence. *)
Definition append (e : entity) (author : value) (now : Z) : st snapshot :=
  since ← (fun s => (s, Ok (created s (ent_id e) author now)));
  data ← st_lift (as_version (stamped e since author now));
  let v := Snapshot (ent_cls e) (ent_id e) (version e) data author now in
  _ ← insert_snapshot v;
  mret v.

Fixpoint insert_by_sequence (v : snapshot) (l : list snapshot) : list snapshot :=
  match l with
  | [] => [v]
  | w :: l' =>
      if sequence v <=? sequence w then v :: l
      else w :: insert_by_sequence v l'
  end.

Definition order_by_sequence (l : list snapshot) : list snapshot :=
  fold_right insert_by_sequence [] l.

(** Modelled from the spec: [history] of section 4.2, the snapshots of
    the entity ordered by sequence, ascending. *)
Definition history (s : store) (id : string) : list snapshot :=
  order_by_sequence (versions_of s id).

(** Modelled from the spec: [load] of section 4.2, the read-only view of
    the entity a snapshot recorded. *)
Definition load (v : snapshot) : instance :=
  Instance (snap_cls v) (payload v).

(** *** Versioned entity: [create] and [save] (6) *)

(** [if not self.id: self.id = self.make_id()], the first statement of
    [ResourceModel.save]. *)
Definition assign_id (e : entity) (uuid_hex : string) : entity :=
  if negb (truthy (VStr (ent_id e)))
  then Entity (ent_cls e) (make_id (ent_cls e) uuid_hex)
              (version e) (locked_version e) (fields e)
  else e.

(** Modelled from the spec: the save of the versioning layer, sections 4
    and 6 ([Versioned.save] is missing): lock check, row update and
    snapshot in one atomic unit, then the lock is refreshed.  The author
    and the time of the save are the [modified_*] metadata of the entity
    from then on: the snapshot holds them, and so does its payload. *)
Definition versioned_save (e : entity) (author : value) (now : Z) : st entity :=
  atomic (e' ← commit e;
          _ ← append e' author now;
          mret (acquire e')).

(** [ResourceModel.save]; [super().save] is the save of the versioning
    layer. *)
Definition save (e : entity) (author : value) (now : Z) (uuid_hex : string)
  : st entity :=
  let e := assign_id e uuid_hex in
  versioned_save e author now.

(** Modelled from the spec: [create] of section 6 assigns the id (with
    [make_id], and the column [id] is unique), sets version 1 and writes
    snapshot 1. *)
Definition create (cls : model) (data : dict) (author : value) (now : Z)
    (uuid_hex : string) : st entity :=
  atomic (let e := assign_id (Entity cls "" 1 1 data) uuid_hex in
          let id := ent_id e in
          taken ← (fun s => (s, Ok (bool_decide (is_Some (rows s !! id)))));
          if taken : bool then st_raise (IntegrityError "id")
          else
            _ ← update_row id (Row cls 1 data);
            _ ← append e author now;
            mret (acquire e)).

(** [entity.name = v] *)
Definition set_field (n : string) (v : value) (e : entity) : entity :=
  Entity (ent_cls e) (ent_id e) (version e) (locked_version e)
         (dict_set n v (fields e)).

(** Modelled from the spec: [increment_version], which the tests call
    before [save] (the class [Versioned] is missing): the version in memory
    moves to the next number (section 3). *)
Definition increment_version (e : entity) : entity :=
  Entity (ent_cls e) (ent_id e) (version e + 1) (locked_version e) (fields e).

(** *** Diff engine (4.3) *)

Abbreviation change := (option value * option value)%type.

(** Deep equality of two payload entries. *)
Definition same (a b : option value) : bool := bool_decide (a = b).

(** Modelled from the spec: [compute] of section 4.3 (the diff engine is
    missing from the sources).  The changed fields among [tracked], each
    with its old and new value; [None] stands for a field absent from a
    payload. *)
Fixpoint compute (old new : dict) (tracked : list string) : gmap string change :=
  match tracked with
  | [] => ∅
  | f :: tracked' =>
      let rest := compute old new tracked' in
      if same (dict_get f old) (dict_get f new) then rest
      else <[f := (dict_get f old, dict_get f new)]> rest
  end.

(** Modelled from the spec: the fields a diff tracks.  Section 9 keeps
    [version], as metadata, out of every diff; the tests of the
    repository do so for all the metadata: they find one entry, [name],
    in the diff of a renamed municipality, whose payloads also differ on
    [version] and on the [modified_*] metadata of the save. *)
Definition diffable_fields (cls : model) : list string :=
  List.filter (fun f => negb (mem f metadata_fields)) (versioned_fields cls).

(** Modelled from the spec: the Diff of section 3 between two snapshots. *)
Definition diff (old new : snapshot) : gmap string change :=
  compute (payload old) (payload new) (diffable_fields (snap_cls new)).

Definition predecessor (s : store) (v : snapshot) : option snapshot :=
  List.find (fun p => sequence p =? sequence v - 1) (history s (entity_id v)).

(** Modelled from the spec: [diff_of] of section 4.2, the diff of a
    snapshot with its predecessor, or with the empty payload for the
    first snapshot. *)
Definition diff_of (s : store) (v : snapshot) : gmap string change :=
  match predecessor s v with
  | Some old => diff old v
  | None => compute [] (payload v) (diffable_fields (snap_cls v))
  end.

(** *** Runs of operations *)

Inductive op : Type :=
| OpCreate (cls : model) (data : dict) (author : value) (now : Z) (uuid_hex : string)
| OpSave (e : entity) (author : value) (now : Z) (uuid_hex : string).

Definition exec (o : op) : st entity :=
  match o with
  | OpCreate cls data author now uuid_hex => create cls data author now uuid_hex
  | OpSave e author now uuid_hex => save e author now uuid_hex
  end.

Definition run (ops : list op) (s : store) : store :=
  fold_left (fun s o => fst (exec o s)) ops s.

(** The field values an operation brings. *)
Definition op_fields (o : op) : dict :=
  match o with
  | OpCreate _ data _ _ _ => data
  | OpSave e _ _ _ => fields e
  end.

(** 1 when [o] is a save of entity [id] that succeeds in [s]. *)
Definition saved (id : string) (o : op) (s : store) : nat :=
  match o, snd (exec o s) with
  | OpSave _ _ _ _, Ok e' => if String.eqb (ent_id e') id then 1 else 0
  | _, _ => 0
  end%nat.

(** The number of successful saves of entity [id] along a run. *)
Fixpoint saves_of (id : string) (ops : list op) (s : store) : nat :=
  match ops with
  | [] => 0
  | o :: ops' => saved id o s + saves_of id ops' (fst (exec o s))
  end%nat.

(** The test scenario: a municipality is created, renamed and saved. *)
Definition moret_data : dict :=
  [("name", VStr "Moret-sur-Loing"); ("insee", VStr "77316")].

Definition scenario_created : store * result entity :=
  create Municipality moret_data (VStr "laposte") 10 "c0ffee" empty_store.

Definition scenario_saved : store * result entity :=
  match scenario_created with
  | (s, Ok m) =>
      save (increment_version
              (set_field "insee" (VStr "77316")
                 (set_field "name" (VStr "Orvanne") m)))
           (VStr "ign") 20 "" s
  | (s, Raise e) => (s, Raise e)
  end.

(** The invariant of the version store: entity [id] has been saved [n]
    times since its creation. *)
Definition tracks (s : store) (id : string) (n : nat) : Prop :=
  match rows s !! id with
  | Some r =>
      row_version r = 1 + Z.of_nat n /\
      sequence <$> versions_of s id = seqZ 1 (row_version r)
  | None => n = 0%nat /\ versions_of s id = []
  end.

(** A snapshot of the store [s]: its payload is [as_version] of a stamped
    entity of its class, and the row of its entity is of that class. *)
Definition snapshot_ok (s : store) (v : snapshot) : Prop :=
  (exists e since author now,
     as_version (stamped e since author now) = Ok (payload v) /\
     ent_cls e = snap_cls v /\ version e = sequence v) /\
  (exists r, rows s !! entity_id v = Some r /\ row_cls r = snap_cls v).

(** A snapshot taken from an entity that holds nothing under
    [version_compact], the attribute [compact_field] would read in place
    of [version]. *)
Definition snapshot_plain (v : snapshot) : Prop :=
  exists e since author now,
    as_version (stamped e since author now) = Ok (payload v) /\
    ent_cls e = snap_cls v /\ version e = sequence v /\
    dict_get "version_compact" (fields e) = None.

Definition moret_id : string := "ban-municipality-c0ffee".

(** The history of the scenario: two snapshots. *)
Definition scenario_snapshots : list snapshot :=
  history (fst scenario_saved) moret_id.

(** The entity as two sessions loaded it right after its creation. *)
Definition moret_loaded : entity := Entity Municipality moret_id 1 1 moret_data.

(** What the first session saves, and what the second one, still holding
    version 1, tries to save afterwards. *)
Definition renamed_session : entity :=
  increment_version
    (set_field "insee" (VStr "77316")
       (set_field "name" (VStr "Orvanne") moret_loaded)).

Definition stale_session : entity :=
  increment_version (set_field "insee" (VStr "77001") moret_loaded).

(** The row of the municipality once renamed. *)
Definition orvanne_row : row :=
  Row Municipality 2 [("name", VStr "Orvanne"); ("insee", VStr "77316")].

(** The first session renames the municipality; the second one then tries
    to change its INSEE code. *)
Definition scenario_ops : list op :=
  [OpCreate Municipality moret_data (VStr "laposte") 10 "c0ffee";
   OpSave renamed_session (VStr "ign") 20 "";
   OpSave stale_session (VStr "dgfip") 30 ""].

Definition blank_snapshot : snapshot := Snapshot db_Model "" 0 [] VNone 0.

Definition scenario_v1 : snapshot := List.nth 0 scenario_snapshots blank_snapshot.
Definition scenario_v2 : snapshot := List.nth 1 scenario_snapshots blank_snapshot.

(** * The fields of [ban/db/fields.py] *)

(** [isinstance(v, list)] *)
Definition is_list (v : value) : bool :=
  match v with VList _ => true | _ => false end.

(** What a field may be given besides the values above: a tuple.
    [ArrayField.coerce] returns a tuple as it is, not as a list. *)
Inductive array_value : Type :=
| Tuple (items : list value)
| Other (v : value).

(** The truth value of a tuple or of another value. *)
Definition truthy_array (value : array_value) : bool :=
  match value with
  | Tuple items => match items with [] => false | _ => true end
  | Other v => truthy v
  end.

(** [isinstance(value, (list, tuple))] *)
Definition is_sequence (value : array_value) : bool :=
  match value with
  | Tuple _ => true
  | Other v => is_list v
  end.

(** ** Text *)

(** A string holds the bytes of its UTF-8 encoding; Python counts and
    slices by character.  A character starts at every byte that is not
    a continuation byte (10xxxxxx). *)
Definition continuation (c : ascii) : bool :=
  let n := nat_of_ascii c in ((128 <=? n) && (n <? 192))%nat.

(** [len(s)] *)
Fixpoint len (s : string) : nat :=
  match s with
  | EmptyString => 0
  | String c s' => (if continuation c then 0 else 1) + len s'
  end%nat.

(** [s[:n]]: the first [n] characters, each with all its bytes. *)
Fixpoint slice_to (n : nat) (s : string) : string :=
  match s with
  | EmptyString => EmptyString
  | String c s' =>
      if continuation c then String c (slice_to n s')
      else match n with
           | O => EmptyString
           | S n' => String c (slice_to n' s')
           end
  end.

(** What a field may raise: an exception of [ban.core] passing through,
    the [KeyError] of a subscript, or whatever peewee raises. *)
Inductive field_exn : Type :=
| Core (e : exn)
| KeyError (key : string)
| Foreign (what : string).

Inductive outcome (A : Type) : Type :=
| Returns (a : A)
| Raises (e : field_exn).
Arguments Returns {A} a.
Arguments Raises {A} e.

(** Storage access with the exceptions of the field layer. *)
Definition fio (A : Type) : Type := (list event * outcome A)%type.

#[global] Instance fio_ret : MRet fio := fun A a => ([], Returns a).
#[global] Instance fio_bind : MBind fio := fun A B k m =>
  match m with
  | (t, Returns a) => let '(t', r) := k a in (t ++ t', r)
  | (t, Raises e) => (t, Raises e)
  end.

(** A call into [ban.core]. *)
Definition core {A : Type} (m : io A) : fio A :=
  match m with
  | (t, Ok a) => (t, Returns a)
  | (t, Raise e) => (t, Raises (Core e))
  end.

(** [d[k]] *)
Definition subscript (d : dict) (k : string) : fio value :=
  match dict_get k d with
  | Some v => mret v
  | None => ([], Raises (KeyError k))
  end.

(** [[f(item) for item in items]] *)
Fixpoint comprehension {A B : Type} (f : A -> fio B) (items : list A)
  : fio (list B) :=
  match items with
  | [] => mret []
  | item :: items' =>
      y ← f item;
      ys ← comprehension f items';
      mret (y :: ys)
  end.

Module ArrayField.

(** Only a value that is not a tuple reaches [[value]]. *)
Definition coerce : array_value -> array_value := fun value =>
  if negb (truthy_array value) then Other (VList [])
  else if truthy_array value && negb (is_sequence value) then
    match value with
    | Other v => Other (VList [v])
    | Tuple _ => value
    end
  else value.

End ArrayField.

Module FantoirField.
Section Coerce.

(** The builtin [str]. *)
Variable str : value -> string.

Definition coerce : value -> result value := fun value =>
  if negb (truthy value) then Ok VNone
  else
    let value := str value in
    let value :=
      if (len value =? 10)%nat then slice_to 9 value else value in
    if negb (len value =? 9)%nat then
      Raise (ValidationError
               ("FANTOIR must be municipality INSEE + 4 first chars of FANTOIR, got `"
                +:+ value +:+ "` instead"))
    else Ok (VStr value).

End Coerce.
End FantoirField.

Module ForeignKeyField.

(** The field, as [coerce] reads it: the related model and whether it has
    a [coerce] of its own, that is, whether it is a [ResourceModel]. *)
Record t : Type := Make {
  rel_model : model;
  rel_has_coerce : bool;
}.

Section Coerce.

Variable get : model -> string -> value -> option instance.
Variable follow : model -> string -> value -> value.

(** [peewee.ForeignKeyField.coerce] *)
Variable super_coerce : value -> outcome value.

(** Every [VObj] is an instance of [peewee.Model]. *)
Definition coerce (self : t) : value -> fio value := fun value =>
  if negb (truthy value) then mret VNone
  else
    value ← match value with
            | VDict d => subscript d "id"
            | _ => mret value
            end;
    value ← (if rel_has_coerce self
             then row ← core (coerce get follow (rel_model self) value None);
                  mret (obj row)
             else mret value);
    value ← match value with
            | VObj c a => core (lift (getattr (Instance c a) "pk"))
            | _ => mret value
            end;
    ([], super_coerce value).

End Coerce.
End ForeignKeyField.

Module ManyToManyField.

Record t : Type := Make {
  rel_model : model;
}.

Section Coerce.

Variable get : model -> string -> value -> option instance.
Variable follow : model -> string -> value -> value.

(** [playhouse.fields.ManyToManyField.coerce] *)
Variable super_coerce : value -> outcome value.

(** A list stands for whatever is iterated, list or tuple: the items are
    resolved into a new list either way. *)
Definition coerce (self : t) : value -> fio value := fun value =>
  if negb (truthy value) then mret (VList [])
  else
    let value := match value with VList l => l | _ => [value] end in
    value ← comprehension
              (fun item => core (coerce get follow (rel_model self) item None))
              value;
    ([], super_coerce (VList (List.map obj value))).

End Coerce.
End ManyToManyField.

(** The builtin [str] on strings, [None] and booleans; the text of other
    values is not written out. *)
Definition str_scalar (v : value) : string :=
  match v with
  | VStr s => s
  | VNone => "None"
  | VBool true => "True"
  | VBool false => "False"
  | _ => ""
  end.

(** * Mappings in insertion order, for any keys and values *)

Fixpoint assoc_get {K V : Type} `{EqDecision K} (k : K) (d : list (K * V))
  : option V :=
  match d with
  | [] => None
  | (k', v) :: d' => if decide (k = k') then Some v else assoc_get k d'
  end.

(** [d[k] = v]: a key keeps the place of its first insertion. *)
Fixpoint assoc_set {K V : Type} `{EqDecision K} (k : K) (v : V)
    (d : list (K * V)) : list (K * V) :=
  match d with
  | [] => [(k, v)]
  | (k', v') :: d' =>
      if decide (k = k') then (k, v) :: d' else (k', v') :: assoc_set k v d'
  end.

(** [d.update(other)] *)
Definition assoc_update {K V : Type} `{EqDecision K}
    (d other : list (K * V)) : list (K * V) :=
  fold_left (fun d kv => assoc_set (fst kv) (snd kv) d) other d.

(** [dict(pairs)] *)
Definition assoc_of_pairs {K V : Type} `{EqDecision K}
    (pairs : list (K * V)) : list (K * V) :=
  assoc_update [] pairs.

(** * The rest of [ban/core/resource.py]: the validation schema *)

(** A field of [cls._meta.fields], as the schema builders read it.
    Attributes read with [getattr(field, ..., None)] hold [None] when
    missing; [rel_model] is the name of the related class. *)
Inductive field_class : Type :=
| OtherField
| ForeignKey (rel_model : string)      (* isinstance(field, db.ForeignKeyField) *)
| ManyToMany (rel_model : string).     (* isinstance(field, db.ManyToManyField) *)

Record meta_field : Type := MetaField {
  field_class_of : field_class;
  primary_key : bool;
  null : bool;
  unique : bool;
  max_length : value;
  min_length : value;
  choices : list (value * value);
  db_field : string;
  schema_type : value;              (* getattr(field.__class__, 'schema_type', None) *)
  dunder_schema_type : value;       (* getattr(field.__class__, '__schema_type__', None) *)
  dunder_schema_format : option string;
}.

#[global] Instance field_class_eq_dec : EqDecision field_class.
Proof. solve_decision. Defined.

#[global] Instance meta_field_eq_dec : EqDecision meta_field.
Proof. solve_decision. Defined.

(** What a rule of the validation schema holds: a value, or the bound
    method [field.coerce]. *)
Inductive rule : Type :=
| Val (v : value)
| CoerceOf (field : meta_field).

Definition rules : Type := list (string * rule).

Definition truthy_rule (r : option rule) : bool :=
  match r with
  | Some (Val v) => truthy v
  | Some (CoerceOf _) => true
  | None => false
  end.

(** The rules computed from the field alone, before [row.update]. *)
Definition field_rules (type_ : value) (field : meta_field) : rules :=
  let row := [("type", Val type_);
              ("required", Val (VBool (negb (null field))));
              ("coerce", CoerceOf field)] in
  let row := if null field then assoc_set "nullable" (Val (VBool true)) row
             else row in
  let row := if unique field then assoc_set "unique" (Val (VBool true)) row
             else row in
  let row := if truthy (max_length field)
             then assoc_set "maxlength" (Val (max_length field)) row else row in
  let row := if negb (null field) then assoc_set "empty" (Val (VBool false)) row
             else row in
  if match choices field with [] => false | _ => true end
  then assoc_set "allowed" (Val (VList (List.map fst (choices field)))) row
  else row.

(** The three guards of the loops over [_meta.fields]: whether the loop
    reaches the row of the field, given the schema type it reads. *)
Definition listed (cls : model) (type_ : value) (name : string)
    (field : meta_field) : bool :=
  mem name (resource_fields cls) && negb (primary_key field) && truthy type_.

(** The row of a field: its own rules, updated with the entry the class
    declares for it, and never required when read-only. *)
Definition schema_row (resource_schema : list (string * rules))
    (name : string) (type_ : value) (field : meta_field) : rules :=
  let row := field_rules type_ field in
  let row := assoc_update row (default [] (assoc_get name resource_schema)) in
  if truthy_rule (assoc_get "readonly" row)
  then assoc_set "required" (Val (VBool false)) row
  else row.

(** One turn of the loop of [build_resource_schema]. *)
Definition build_field (cls : model) (resource_schema : list (string * rules))
    (schema : list (string * rules)) (item : string * meta_field)
  : list (string * rules) :=
  let '(name, field) := item in
  if negb (mem name (resource_fields cls)) then schema
  else if primary_key field then schema
  else
    let type_ := schema_type field in
    if negb (truthy type_) then schema
    else assoc_set name (schema_row resource_schema name type_ field) schema.

(** [build_resource_schema], from the fields of [cls._meta.fields] and
    the [resource_schema] of the class to the new [resource_schema]. *)
Definition build_resource_schema (cls : model)
    (meta_fields : list (string * meta_field))
    (resource_schema : list (string * rules)) : list (string * rules) :=
  fold_left (build_field cls resource_schema) meta_fields resource_schema.

(** [resource_schema.update(inherited)] of [BaseResource.__new__], for a
    class body that declares a [resource_schema] or not. *)
Definition inherit_update (own : option (list (string * rules)))
    (inherited : list (string * rules)) : list (string * rules) :=
  match own with
  | Some resource_schema => assoc_update resource_schema inherited
  | None => inherited
  end.

(** * [ban/http/schema.py] *)

Module Schema.

Record definition : Type := Definition_ {
  required : list string;
  properties : list (string * dict);
  type : list string;
}.

(** [row['type'].append('null')] *)
Definition append_to (key : string) (v : value) (row : dict) : dict :=
  match dict_get key row with
  | Some (VList l) => dict_set key (VList (l ++ [v])) row
  | _ => row
  end.

Definition ref (rel_model : string) : value :=
  VStr ("#/definitions/" +:+ rel_model).

Definition field_row (type_ : value) (field : meta_field) : dict :=
  let row := [("type", VList [type_])] in
  let row := match dunder_schema_format field with
             | Some format => dict_set "format" (VStr format) row
             | None => row
             end in
  let row := match field_class_of field with
             | ForeignKey rel_model =>
                 dict_set "$ref" (ref rel_model)
                   (dict_set "type" (VList [VStr "object"; VStr "string"]) row)
             | _ => row
             end in
  let row := match field_class_of field with
             | ManyToMany rel_model =>
                 dict_set "items" (VDict [("$ref", ref rel_model)]) row
             | _ =>
                 if bool_decide (type_ = VStr "array")
                 then dict_set "items" (VDict [("type", VStr (db_field field))]) row
                 else row
             end in
  let row := if null field && bool_decide (is_Some (dict_get "type" row))
             then append_to "type" (VStr "null") row else row in
  let row := if unique field then dict_set "unique" (VBool true) row else row in
  let row := if truthy (max_length field)
             then dict_set "maxLength" (max_length field) row else row in
  let min_length :=
    if negb (truthy (min_length field)) && bool_decide (type_ = VStr "string")
       && negb (null field)
    then VInt 1 else min_length field in
  let row := if truthy min_length then dict_set "minLength" min_length row
             else row in
  match choices field with
  | [] => row
  | _ =>
      let row := dict_set "enum" (VList (List.map fst (choices field))) row in
      if null field then append_to "enum" VNone row else row
  end.

(** One turn of the loop of [model_definition]. *)
Definition define_field (cls : model) (readonly_fields : list string)
    (schema : definition) (item : string * meta_field) : definition :=
  let '(name, field) := item in
  if negb (mem name (resource_fields cls)) then schema
  else if primary_key field then schema
  else
    let type_ := dunder_schema_type field in
    if negb (truthy type_) then schema
    else
      let schema :=
        {| required := required schema;
           properties := assoc_set name (field_row type_ field) (properties schema);
           type := type schema |} in
      let readonly := mem name readonly_fields in
      if negb (null field) && negb readonly && negb (mem name (required schema))
      then {| required := required schema ++ [name];
              properties := properties schema;
              type := type schema |}
      else schema.

Definition model_definition (cls : model) (readonly_fields : list string)
    (meta_fields : list (string * meta_field)) : definition :=
  fold_left (define_field cls readonly_fields) meta_fields
    {| required := []; properties := []; type := ["object"; "string"; "null"] |}.

(** [register_endpoint] on [self['paths']], given the documentation that
    [get_responder_doc] builds for the responder. *)
Definition register_endpoint (paths : list (string * dict)) (path : string)
    (doc : value) (methods : list string) : list (string * dict) :=
  let definition :=
    assoc_of_pairs (List.map (fun verb => (lower verb, doc)) methods) in
  match assoc_get path paths with
  | Some registered => assoc_set path (assoc_update registered definition) paths
  | None => assoc_set path definition paths
  end.

End Schema.

(** * [ban/core/models.py]: the validation of a position *)

Module Position.

(** The validator, as [validate] reads it. *)
Record validator : Type := Validator {
  update : bool;
}.

Definition msg : string := "A position must have either a center or a name.".

(** [instance and validator.update and getattr(instance, n)] *)
Definition default_of (validator : validator) (instance : option instance)
    (n : string) : result value :=
  match instance with
  | None => Ok VNone
  | Some instance =>
      if update validator then getattr instance n else Ok (VBool false)
  end.

Definition validate (validator : validator) (document : dict)
    (instance : option instance) : result dict :=
  let errors := [] in
  default ← default_of validator instance "name";
  let name := match dict_get "name" document with
              | Some v => v
              | None => default
              end in
  default ← default_of validator instance "center";
  let center := match dict_get "center" document with
                | Some v => v
                | None => default
                end in
  if negb (truthy name) && negb (truthy center)
  then Ok (dict_set "name" (VStr msg) (dict_set "center" (VStr msg) errors))
  else Ok errors.

End Position.

(** * [ban/commands/__init__.py] *)

Module Command.

(** What the pairs of [zip_longest] hold: the name of an argument, a
    default value, or the filler [NO_DEFAULT]. *)
Inductive slot : Type :=
| NO_DEFAULT
| Name (n : string)
| Default (v : value).

#[global] Instance slot_eq_dec : EqDecision slot.
Proof. solve_decision. Defined.

Fixpoint zip_longest {A : Type} (fillvalue : A) (l1 l2 : list A)
  : list (A * A) :=
  match l1 with
  | [] => List.map (fun y => (fillvalue, y)) l2
  | x :: l1' =>
      match l2 with
      | [] => (x, fillvalue) :: zip_longest fillvalue l1' []
      | y :: l2' => (x, y) :: zip_longest fillvalue l1' l2'
      end
  end.

(** [inspect], from [spec.args] and [spec.defaults] to [self.spec];
    [None] is the [KeyError] of [spec_dict[x]]. *)
Definition inspect (args : list string) (defaults : option (list value))
  : option (list (string * slot)) :=
  let arg_names := args in
  let matched_args :=
    (List.rev (List.map Name args),
     List.rev (List.map Default (default [] defaults))) in
  let spec_dict :=
    assoc_of_pairs (zip_longest NO_DEFAULT (fst matched_args) (snd matched_args)) in
  mapM (fun x => v ← assoc_get (Name x) spec_dict; Some (x, v)) arg_names.

(** [Command.report] on [self._reports] *)
Definition report (name : string) (item : value)
    (_reports : list (string * list value)) : list (string * list value) :=
  let _reports :=
    match assoc_get name _reports with
    | None => assoc_set name [] _reports
    | Some _ => _reports
    end in
  assoc_set name (default [] (assoc_get name _reports) ++ [item]) _reports.

End Command.

(** Sample fields, of the classes of [ban/db/fields.py]: the primary
    key and the [id] column of [ResourceModel], the columns [name] and
    [siren] of a municipality.  These classes define [__schema_type__]
    and no [schema_type], so [getattr(field.__class__, 'schema_type',
    None)] is [None] for each of them. *)
Definition pk_field : meta_field :=
  MetaField OtherField true false false VNone VNone [] "primary_key"
            VNone VNone None.

Definition id_field : meta_field :=
  MetaField OtherField false false true (VInt 50) VNone [] "string"
            VNone (VStr "string") None.

Definition name_field : meta_field :=
  MetaField OtherField false false false (VInt 200) VNone [] "string"
            VNone (VStr "string") None.

Definition siren_field : meta_field :=
  MetaField OtherField false true true (VInt 9) (VInt 9) [] "string"
            VNone (VStr "string") None.

Definition sample_fields : list (string * meta_field) :=
  [("pk", pk_field); ("id", id_field); ("name", name_field);
   ("siren", siren_field)].

(** [resource_schema = {'id': {'readonly': True}}] *)
Definition sample_schema : list (string * rules) :=
  [("id", [("readonly", Val (VBool true))])].
(** * Properties of the serialized views *)

Lemma dict_get_set_eq k v d : dict_get k (dict_set k v d) = Some v.
Proof.
  induction d as [|[k' v'] d IH]; simpl.
  - now rewrite String.eqb_refl.
  - destruct (String.eqb k k') eqn:E; simpl.
    + now rewrite String.eqb_refl.
    + now rewrite E.
Qed.

Lemma dict_get_set_ne k k' v d : k <> k' -> dict_get k (dict_set k' v d) = dict_get k d.
Proof.
  intros Hne. induction d as [|[k0 v0] d IH]; simpl.
  - destruct (String.eqb_spec k k'); congruence.
  - destruct (String.eqb_spec k' k0) as [->|Hk0]; simpl.
    + destruct (String.eqb_spec k k0); congruence.
    + destruct (String.eqb_spec k k0); congruence.
Qed.

Lemma dict_get_set k k' v d :
  dict_get k (dict_set k' v d) = if String.eqb k k' then Some v else dict_get k d.
Proof.
  destruct (String.eqb_spec k k') as [->|Hne].
  - apply dict_get_set_eq.
  - now apply dict_get_set_ne.
Qed.

Lemma is_none_true v : is_none v = true <-> v = VNone.
Proof. destruct v; simpl; split; congruence. Qed.

Section KeepNotNone.
Variable field : instance -> string -> result value.
Variable self : instance.

(** What the filtering loop leaves under a key: the last word belongs to
    the field when it is listed and not [None], to the accumulator
    otherwise. *)
Lemma keep_not_none_loop (l : list string) :
  forall acc out,
    for_each (keep_not_none field self) l acc = Ok out ->
    forall k,
      dict_get k out =
        if mem k l then
          match field self k with
          | Ok v => if is_none v then dict_get k acc else Some v
          | Raise _ => dict_get k acc
          end
        else dict_get k acc.
Proof.
  induction l as [|n l IH]; intros acc out Hrun k; simpl in *.
  - now inversion Hrun.
  - unfold keep_not_none in Hrun at 1.
    destruct (field self n) as [v|e] eqn:Hf; simpl in Hrun; [|discriminate].
    destruct (is_none v) eqn:Hn; simpl in Hrun.
    + rewrite (IH _ _ Hrun k). unfold mem.
      destruct (String.eqb_spec k n) as [->|Hne]; simpl.
      * rewrite Hf, Hn. now destruct (existsb _ l).
      * reflexivity.
    + rewrite (IH _ _ Hrun k). unfold mem.
      destruct (String.eqb_spec k n) as [->|Hne]; simpl.
      * rewrite Hf, Hn, dict_get_set_eq. now destruct (existsb _ l).
      * rewrite dict_get_set_ne by assumption. reflexivity.
Qed.

Lemma keep_not_none_present (l : list string) out k v :
  for_each (keep_not_none field self) l [] = Ok out ->
  dict_get k out = Some v ->
  mem k l = true /\ field self k = Ok v /\ v <> VNone.
Proof.
  intros Hrun Hget. rewrite (keep_not_none_loop l _ _ Hrun k) in Hget.
  simpl in Hget. destruct (mem k l); [|discriminate].
  destruct (field self k) as [w|e]; [|discriminate].
  destruct (is_none w) eqn:Hn; [discriminate|].
  inversion Hget; subst. repeat split; trivial.
  intros ->. discriminate.
Qed.

Lemma keep_not_none_absent (l : list string) out k :
  for_each (keep_not_none field self) l [] = Ok out ->
  field self k = Ok VNone ->
  dict_get k out = None.
Proof.
  intros Hrun Hf. rewrite (keep_not_none_loop l _ _ Hrun k), Hf. simpl.
  now destruct (mem k l).
Qed.
End KeepNotNone.

(** A field that holds [None], and has no [_extended] (resp. [_compact])
    variant, is computed as [None]. *)
Lemma extended_field_None self n a :
  getattr self n = Ok VNone ->
  getattr self (n +:+ "_extended") = Raise (AttributeError a) ->
  extended_field self n = Ok VNone.
Proof. intros H1 H2. unfold extended_field. now rewrite H1, H2. Qed.

Lemma compact_field_None self n a :
  getattr self n = Ok VNone ->
  getattr self (n +:+ "_compact") = Raise (AttributeError a) ->
  compact_field self n = Ok VNone.
Proof. intros H1 H2. unfold compact_field. now rewrite H1, H2. Qed.

(** C10. The two serialized views never carry [None]: in the mapping
    returned by [as_resource] (and in the one returned by [as_relation])
    every key present maps to a value that is not [None], that value is
    the one [extended_field] (resp. [compact_field]) computes for a listed
    field, and a field whose computed value is [None] has no key at all;
    so it is for a field that holds [None] and has no [_extended] (resp.
    [_compact]) variant. *)
Theorem views_omit_None (self : instance) :
  (forall res, as_resource self = Ok res ->
     (forall k v, dict_get k res = Some v ->
        v <> VNone /\ extended_field self k = Ok v
        /\ mem k (resource_fields (inst_cls self)) = true) /\
     (forall k, extended_field self k = Ok VNone -> dict_get k res = None) /\
     (forall k a, getattr self k = Ok VNone ->
        getattr self (k +:+ "_extended") = Raise (AttributeError a) ->
        dict_get k res = None)) /\
  (forall rel, as_relation self = Ok rel ->
     (forall k v, dict_get k rel = Some v ->
        v <> VNone /\ compact_field self k = Ok v
        /\ mem k (collection_fields (inst_cls self)) = true) /\
     (forall k, compact_field self k = Ok VNone -> dict_get k rel = None) /\
     (forall k a, getattr self k = Ok VNone ->
        getattr self (k +:+ "_compact") = Raise (AttributeError a) ->
        dict_get k rel = None)).
Proof.
  split.
  - intros res Hres. unfold as_resource in Hres. split; [|split].
    + intros k v Hk.
      destruct (keep_not_none_present _ _ _ _ _ _ Hres Hk) as (Hin & Hf & Hv).
      auto.
    + intros k Hk. eapply keep_not_none_absent; eauto.
    + intros k a H1 H2. eapply keep_not_none_absent; eauto.
      eapply extended_field_None; eauto.
  - intros rel Hrel. unfold as_relation in Hrel. split; [|split].
    + intros k v Hk.
      destruct (keep_not_none_present _ _ _ _ _ _ Hrel Hk) as (Hin & Hf & Hv).
      auto.
    + intros k Hk. eapply keep_not_none_absent; eauto.
    + intros k a H1 H2. eapply keep_not_none_absent; eauto.
      eapply compact_field_None; eauto.
Qed.

(** * Properties of [coerce] *)

Lemma split_no_sep sep s : contains sep s = false -> split sep s = [s].
Proof.
  induction s as [|c s IH]; simpl; intros H; [reflexivity|].
  apply orb_false_iff in H as [Hc Hs].
  rewrite Hc, (IH Hs). reflexivity.
Qed.

Lemma split_app_sep sep k s :
  contains sep k = false ->
  split sep (k +:+ String sep s) = k :: split sep s.
Proof.
  induction k as [|c k IH]; simpl; intros H.
  - now rewrite Ascii.eqb_refl.
  - apply orb_false_iff in H as [Hc Hk].
    rewrite Hc, (IH Hk). reflexivity.
Qed.

Lemma split_kind_value k v :
  contains ":" k = false -> contains ":" v = false ->
  split ":" (k +:+ ":" +:+ v) = [k; v].
Proof.
  intros Hk Hv. change (":" +:+ v) with (String ":" v).
  rewrite (split_app_sep _ _ _ Hk), (split_no_sep _ _ Hv). reflexivity.
Qed.

Lemma mem_true_iff x l : mem x l = true <-> In x l.
Proof.
  unfold mem. rewrite existsb_exists. split.
  - intros (y & Hy & E). apply String.eqb_eq in E. now subst.
  - intros H. exists x. split; [assumption|apply String.eqb_refl].
Qed.

Lemma identifiers_are_attrs_spec cls k :
  identifiers_are_attrs cls = true ->
  mem k (identifiers cls ++ ["id"; "pk"]) = true ->
  exists a, class_getattr cls k = Some a.
Proof.
  unfold identifiers_are_attrs. rewrite forallb_forall, mem_true_iff.
  intros Hall Hin. specialize (Hall _ Hin).
  apply bool_decide_eq_true in Hall. destruct Hall as [a Ha]. eauto.
Qed.

Section Coerce.

Variable get : model -> string -> value -> option instance.
Variable follow : model -> string -> value -> value.

Lemma io_bind_ret {A B : Type} (a : A) (k : A -> io B) : (mret a ≫= k) = k a.
Proof.
  unfold mbind, io_bind, mret, io_ret. destruct (k a) as [t r]. reflexivity.
Qed.

(** Parsing: the token names a declared kind. *)
Lemma coerce_token cls s kind v identifier :
  not_given identifier = true ->
  (List.removelast (split ":" s) = [] /\ kind = "id" \/
   exists rest, List.removelast (split ":" s) = kind :: rest) ->
  List.last (split ":" s) "" = v ->
  mem kind (identifiers cls ++ ["id"; "pk"]) = true ->
  coerce get follow cls (VStr s) identifier
  = lookup_or_redirect get follow cls kind (VStr v).
Proof.
  intros Hng Hkind Hv Hmem. unfold coerce. rewrite Hng.
  assert (E : match List.removelast (split ":" s) with
              | e :: _ => e | [] => "id" end = kind).
  { destruct Hkind as [[-> ->]|[rest ->]]; reflexivity. }
  cbv zeta. rewrite E, Hmem, Hv. simpl negb. cbv iota.
  rewrite io_bind_ret. reflexivity.
Qed.

Lemma coerce_explicit cls id identifier :
  identifier <> "" ->
  coerce get follow cls id (Some identifier)
  = lookup_or_redirect get follow cls identifier id.
Proof.
  intros Hne. unfold coerce, not_given.
  destruct (String.eqb_spec identifier ""); [contradiction|].
  rewrite io_bind_ret. reflexivity.
Qed.

Lemma coerce_not_str cls id identifier :
  not_given identifier = true ->
  (forall s, id <> VStr s) ->
  coerce get follow cls id identifier
  = lookup_or_redirect get follow cls "id" id.
Proof.
  intros Hng Hns. unfold coerce. rewrite Hng.
  destruct id; try (rewrite io_bind_ret; reflexivity).
  now specialize (Hns s).
Qed.

Lemma VStr_or_not (id : value) : (exists s, id = VStr s) \/ (forall s, id <> VStr s).
Proof. destruct id; try (right; discriminate). left. eauto. Qed.

Lemma lookup_or_redirect_outcome cls k v :
  lookup_outcome get follow cls k v (lookup_or_redirect get follow cls k v).
Proof.
  unfold lookup_or_redirect, cls_get, cls_follow, cls_getattr, lift.
  destruct (class_getattr cls k) as [a|] eqn:Ha; simpl.
  - destruct (get cls k v) as [row|] eqn:Hg; simpl.
    + now apply LoHit.
    + rewrite String.eqb_refl.
      destruct (truthy (follow cls k v)) eqn:Ht; simpl.
      * destruct (get cls k (follow cls k v)) as [row|] eqn:Hg2; simpl.
        -- now apply LoRedirectHit.
        -- now apply LoRedirectMiss.
      * now apply LoNoRedirect.
  - now apply LoNoAttr.
Qed.

(** Every run of [coerce] either stops at validation or is one run of the
    [try] block. *)
Lemma coerce_cases cls id identifier :
  (exists kind,
     mem kind (identifiers cls ++ ["id"; "pk"]) = false /\
     coerce get follow cls id identifier
     = ([], Raise (DoesNotExist (name cls) (InvalidIdentifierMsg kind)))) \/
  (exists k v,
     coerce get follow cls id identifier
     = lookup_or_redirect get follow cls k v).
Proof.
  destruct (not_given identifier) eqn:Hng.
  - destruct id as [| b | z | s | l | d | c a];
      try (right; eexists _, _; apply coerce_not_str; [assumption|congruence]).
    set (kind := match List.removelast (split ":" s) with
                 | e :: _ => e | [] => "id" end).
    destruct (mem kind (identifiers cls ++ ["id"; "pk"])) eqn:Hmem.
    + right. exists kind, (VStr (List.last (split ":" s) "")).
      apply coerce_token; trivial. subst kind.
      destruct (List.removelast (split ":" s)); eauto.
    + left. exists kind. split; [assumption|].
      unfold coerce. rewrite Hng. cbv zeta. fold kind. rewrite Hmem.
      reflexivity.
  - right. destruct identifier as [i|]; [|discriminate].
    exists i, id. apply coerce_explicit. intros ->. discriminate.
Qed.

(** C4 (as amended). A token whose namespace prefix is not a declared
    identifier kind of the class (nor [id] nor [pk]) makes [coerce] fail
    before any storage access, with the class's own [DoesNotExist]
    exception carrying ["Invalid identifier <kind>"]: the very exception
    class that [except cls.DoesNotExist] recognises as a lookup miss. *)
Theorem coerce_undeclared_kind cls s kind rest identifier :
  not_given identifier = true ->
  List.removelast (split ":" s) = kind :: rest ->
  mem kind (identifiers cls ++ ["id"; "pk"]) = false ->
  coerce get follow cls (VStr s) identifier
  = ([], Raise (DoesNotExist (name cls) (InvalidIdentifierMsg kind))) /\
  is_DoesNotExist cls (DoesNotExist (name cls) (InvalidIdentifierMsg kind)) = true.
Proof.
  intros Hng Hparts Hmem. split.
  - unfold coerce. rewrite Hng. cbv zeta. rewrite Hparts, Hmem. reflexivity.
  - simpl. apply String.eqb_refl.
Qed.

(** The [try] block, run by run: a hit; a miss that the resolver does not
    redirect; a miss, one redirect and the retried lookup, whatever it
    gives. *)
Lemma lookup_or_redirect_exact cls k v :
  match class_getattr cls k with
  | None => lookup_or_redirect get follow cls k v = ([], Raise (AttributeError k))
  | Some _ =>
      match get cls k v with
      | Some row =>
          lookup_or_redirect get follow cls k v = ([EvGet (name cls) k v], Ok row)
      | None =>
          if truthy (follow cls k v) then
            lookup_or_redirect get follow cls k v
            = ([EvGet (name cls) k v; EvFollow (name cls) k v;
                EvGet (name cls) k (follow cls k v)],
               match get cls k (follow cls k v) with
               | Some row => Ok row
               | None =>
                   Raise (DoesNotExist (name cls) (NoMatchMsg k (follow cls k v)))
               end)
          else
            lookup_or_redirect get follow cls k v
            = ([EvGet (name cls) k v; EvFollow (name cls) k v],
               Raise (DoesNotExist (name cls) (NoMatchMsg k v)))
      end
  end.
Proof.
  unfold lookup_or_redirect, cls_get, cls_follow, cls_getattr, lift.
  destruct (class_getattr cls k) as [a|]; simpl; [|reflexivity].
  destruct (get cls k v) as [row|]; simpl; [reflexivity|].
  rewrite String.eqb_refl.
  destruct (truthy (follow cls k v)); simpl; [|reflexivity].
  destruct (get cls k (follow cls k v)); reflexivity.
Qed.

(** C5 (as amended). What [coerce] does is settled by its arguments, the
    two lookups and the resolver, and it is a single hop.  Either the
    token names an undeclared kind and nothing is looked up; or, for the
    identifier [k] and the value [v] that the arguments give: a hit
    returns the row after one lookup; after a miss the resolver is
    consulted once, and if it gives nothing the class's [DoesNotExist] is
    raised; if it gives a value the lookup is retried once with it, and
    its row is returned or, on a second miss, [DoesNotExist] is raised
    without the resolver being consulted again.  So there are never more
    than one consultation and two lookups, and no other exception than
    [DoesNotExist] or the [AttributeError] of a mistyped explicit
    identifier. *)
Theorem coerce_single_hop cls id identifier :
  let run := coerce get follow cls id identifier in
  (length (List.filter is_follow (fst run)) <= 1)%nat /\
  (length (List.filter is_get (fst run)) <= 2)%nat /\
  row_or_lookup_error cls (snd run) = true /\
  ((exists s kind,
      not_given identifier = true /\ id = VStr s /\
      kind = match List.removelast (split ":" s) with
             | e :: _ => e
             | [] => "id"
             end /\
      mem kind (identifiers cls ++ ["id"; "pk"]) = false /\
      run = ([], Raise (DoesNotExist (name cls) (InvalidIdentifierMsg kind)))) \/
   (exists k v,
      (not_given identifier = false -> k = default "" identifier /\ v = id) /\
      (not_given identifier = true -> (forall s, id <> VStr s) ->
       k = "id" /\ v = id) /\
      (forall s, not_given identifier = true -> id = VStr s ->
         k = match List.removelast (split ":" s) with
             | e :: _ => e
             | [] => "id"
             end /\
         v = VStr (List.last (split ":" s) "") /\
         mem k (identifiers cls ++ ["id"; "pk"]) = true) /\
      match class_getattr cls k with
      | None => run = ([], Raise (AttributeError k))
      | Some _ =>
          match get cls k v with
          | Some row => run = ([EvGet (name cls) k v], Ok row)
          | None =>
              if truthy (follow cls k v) then
                run = ([EvGet (name cls) k v; EvFollow (name cls) k v;
                        EvGet (name cls) k (follow cls k v)],
                       match get cls k (follow cls k v) with
                       | Some row => Ok row
                       | None =>
                           Raise (DoesNotExist (name cls)
                                    (NoMatchMsg k (follow cls k v)))
                       end)
              else
                run = ([EvGet (name cls) k v; EvFollow (name cls) k v],
                       Raise (DoesNotExist (name cls) (NoMatchMsg k v)))
          end
      end)).
Proof.
  intros run. subst run.
  split; [|split; [|split]].
  - destruct (coerce_cases cls id identifier) as [(kind & _ & ->)|(k & v & ->)];
      [simpl; lia|].
    destruct (lookup_or_redirect_outcome cls k v); simpl; lia.
  - destruct (coerce_cases cls id identifier) as [(kind & _ & ->)|(k & v & ->)];
      [simpl; lia|].
    destruct (lookup_or_redirect_outcome cls k v); simpl; lia.
  - destruct (coerce_cases cls id identifier) as [(kind & _ & ->)|(k & v & ->)];
      [simpl; now rewrite String.eqb_refl|].
    destruct (lookup_or_redirect_outcome cls k v); simpl;
      rewrite ?String.eqb_refl; reflexivity.
  - destruct (not_given identifier) eqn:Hng.
    + destruct (VStr_or_not id) as [[s ->]|Hns].
      * set (kind := match List.removelast (split ":" s) with
                     | e :: _ => e | [] => "id" end).
        destruct (mem kind (identifiers cls ++ ["id"; "pk"])) eqn:Hmem.
        -- right. exists kind, (VStr (List.last (split ":" s) "")).
           split; [discriminate|]. split; [intros _ Hns; now destruct (Hns s)|].
           split; [intros s' _ [= <-]; auto|].
           rewrite (coerce_token cls s kind (List.last (split ":" s) "") identifier);
             [apply lookup_or_redirect_exact|assumption| |reflexivity|assumption].
           subst kind. destruct (List.removelast (split ":" s)); eauto.
        -- left. exists s, kind. repeat split; trivial.
           unfold coerce. rewrite Hng. cbv zeta. fold kind. now rewrite Hmem.
      * right. exists "id", id. split; [discriminate|]. split; [auto|].
        split; [intros s _ ->; now destruct (Hns s)|].
        rewrite (coerce_not_str cls id identifier Hng Hns).
        apply lookup_or_redirect_exact.
    + right. destruct identifier as [i|]; [|discriminate].
      exists i, id. split; [auto|]. split; [discriminate|].
      split; [discriminate|].
      rewrite (coerce_explicit cls id i);
        [apply lookup_or_redirect_exact|intros ->; discriminate].
Qed.

(** C6. When the direct lookup of [old] under [kind] finds no row, the
    resolver maps ([cls], [kind], [old]) to [new], and a live row holds
    [new], then resolving [old] under [kind] (as the token [kind:old], or
    with [kind] as the explicit identifier) returns that row, through
    exactly one lookup miss, one redirect and one retried lookup. *)
Theorem coerce_follows_redirect cls kind old new row :
  identifiers_are_attrs cls = true ->
  mem kind (identifiers cls ++ ["id"; "pk"]) = true ->
  kind <> "" -> contains ":" kind = false -> contains ":" old = false ->
  get cls kind (VStr old) = None ->
  follow cls kind (VStr old) = new -> truthy new = true ->
  get cls kind new = Some row ->
  coerce get follow cls (VStr (kind +:+ ":" +:+ old)) None
  = ([EvGet (name cls) kind (VStr old); EvFollow (name cls) kind (VStr old);
      EvGet (name cls) kind new], Ok row) /\
  coerce get follow cls (VStr old) (Some kind)
  = ([EvGet (name cls) kind (VStr old); EvFollow (name cls) kind (VStr old);
      EvGet (name cls) kind new], Ok row).
Proof.
  intros Hattrs Hmem Hne Hk Hold Hmiss Hfollow Htruthy Hhit.
  destruct (identifiers_are_attrs_spec _ _ Hattrs Hmem) as [a Ha].
  assert (E : lookup_or_redirect get follow cls kind (VStr old)
              = ([EvGet (name cls) kind (VStr old);
                  EvFollow (name cls) kind (VStr old);
                  EvGet (name cls) kind new], Ok row)).
  { unfold lookup_or_redirect, cls_get, cls_follow, cls_getattr, lift.
    rewrite Ha. simpl. rewrite Hmiss. simpl. rewrite String.eqb_refl.
    rewrite Hfollow, Htruthy. simpl. rewrite Hhit. reflexivity. }
  split.
  - rewrite (coerce_token cls _ kind old None); trivial.
    + right. exists []. now rewrite split_kind_value.
    + now rewrite split_kind_value.
  - now rewrite coerce_explicit.
Qed.

(** C7 (as amended). A bare token (no colon) is looked up under [id]
    with the whole token as the value; a token [kind:value] with a
    declared kind and no colon in [value] is looked up under [kind] with
    [value]; in both cases the first (and, on a match, only) storage
    access is that lookup, and a matching row is returned. *)
Theorem coerce_token_lookup cls :
  identifiers_are_attrs cls = true ->
  (forall s, contains ":" s = false ->
     exists t r,
       coerce get follow cls (VStr s) None
       = (EvGet (name cls) "id" (VStr s) :: t, r) /\
       (forall row, get cls "id" (VStr s) = Some row -> t = [] /\ r = Ok row)) /\
  (forall kind v,
     contains ":" kind = false -> contains ":" v = false ->
     mem kind (identifiers cls ++ ["id"; "pk"]) = true ->
     exists t r,
       coerce get follow cls (VStr (kind +:+ ":" +:+ v)) None
       = (EvGet (name cls) kind (VStr v) :: t, r) /\
       (forall row, get cls kind (VStr v) = Some row -> t = [] /\ r = Ok row)).
Proof.
  intros Hattrs.
  assert (Hlookup : forall k v,
    mem k (identifiers cls ++ ["id"; "pk"]) = true ->
    exists t r,
      lookup_or_redirect get follow cls k v = (EvGet (name cls) k v :: t, r) /\
      (forall row, get cls k v = Some row -> t = [] /\ r = Ok row)).
  { intros k v Hmem.
    destruct (identifiers_are_attrs_spec _ _ Hattrs Hmem) as [a Ha].
    destruct (lookup_or_redirect_outcome cls k v) as [Hno|row Hg|Hg Ht|row Hg Ht Hg2|Hg Ht Hg2];
      try congruence; eexists _, _; (split; [reflexivity|]);
      intros row' Hrow; try congruence.
    split; congruence. }
  split.
  - intros s Hs.
    rewrite (coerce_token cls s "id" s None); trivial.
    + apply Hlookup. apply mem_true_iff, in_or_app. right. simpl. auto.
    + left. now rewrite split_no_sep.
    + now rewrite split_no_sep.
    + apply mem_true_iff, in_or_app. right. simpl. auto.
  - intros kind v Hk Hv Hmem.
    rewrite (coerce_token cls _ kind v None); trivial.
    + now apply Hlookup.
    + right. exists []. now rewrite split_kind_value.
    + now rewrite split_kind_value.
Qed.
End Coerce.

(** * Properties of versioned entities *)

(** What the save of the versioning layer does, case by case. *)
Lemma versioned_save_eq e author now s :
  versioned_save e author now s =
    match rows s !! ent_id e with
    | Some r =>
        if bool_decide (row_cls r = ent_cls e) then
          if bool_decide (row_version r = locked_version e) then
            let next := locked_version e + 1 in
            let e' := Entity (ent_cls e) (ent_id e) next (locked_version e) (fields e) in
            match as_version
                    (stamped e' (created s (ent_id e) author now) author now) with
            | Ok data =>
                (Store (<[ent_id e := Row (ent_cls e) next (fields e)]> (rows s))
                       (versions s ++
                          [Snapshot (ent_cls e) (ent_id e) next data author now]),
                 Ok (Entity (ent_cls e) (ent_id e) next next (fields e)))
            | Raise err => (s, Raise err)
            end
          else (s, Raise (Conflict (locked_version e) (row_version r)))
        else (s, Raise (DoesNotExist (name (ent_cls e))
                          (NoMatchMsg "id" (VStr (ent_id e)))))
    | None => (s, Raise (DoesNotExist (name (ent_cls e))
                           (NoMatchMsg "id" (VStr (ent_id e)))))
    end.
Proof.
  unfold versioned_save, atomic, commit, append, select_row, update_row,
    insert_snapshot, st_lift, st_raise, mbind, st_bind, mret, st_ret.
  destruct (rows s !! ent_id e) as [r|]; [|reflexivity].
  destruct (bool_decide (row_cls r = ent_cls e)); [|reflexivity].
  destruct (bool_decide (row_version r = locked_version e)); [|reflexivity].
  cbv zeta. cbn [fst snd ent_id ent_cls version].
  change (created (Store (<[ent_id e := Row (ent_cls e) (locked_version e + 1)
                                           (fields e)]> (rows s)) (versions s)))
    with (created s).
  destruct (as_version _); reflexivity.
Qed.

Lemma assign_id_has_id e uuid_hex : ent_id e <> "" -> assign_id e uuid_hex = e.
Proof.
  intros Hne. unfold assign_id. simpl.
  destruct (String.eqb_spec (ent_id e) ""); [contradiction|reflexivity].
Qed.

Lemma assign_id_keeps e uuid_hex :
  ent_cls (assign_id e uuid_hex) = ent_cls e /\
  version (assign_id e uuid_hex) = version e /\
  locked_version (assign_id e uuid_hex) = locked_version e /\
  fields (assign_id e uuid_hex) = fields e.
Proof. unfold assign_id. destruct (negb _); simpl; auto. Qed.

Lemma create_eq cls data author now uuid_hex s :
  create cls data author now uuid_hex s =
    let id := make_id cls uuid_hex in
    match rows s !! id with
    | Some _ => (s, Raise (IntegrityError "id"))
    | None =>
        match as_version
                (stamped (Entity cls id 1 1 data) (created s id author now)
                   author now) with
        | Ok payload =>
            (Store (<[id := Row cls 1 data]> (rows s))
                   (versions s ++ [Snapshot cls id 1 payload author now]),
             Ok (Entity cls id 1 1 data))
        | Raise err => (s, Raise err)
        end
    end.
Proof.
  unfold create, atomic, append, update_row, insert_snapshot, st_lift,
    st_raise, mbind, st_bind, mret, st_ret.
  change (assign_id (Entity cls "" 1 1 data) uuid_hex)
    with (Entity cls (make_id cls uuid_hex) 1 1 data).
  cbv zeta. cbn [ent_id]. destruct (rows s !! make_id cls uuid_hex) as [r|] eqn:Hr.
  - rewrite bool_decide_eq_true_2 by eauto. reflexivity.
  - rewrite bool_decide_eq_false_2 by (intros [? ?]; congruence).
    cbn [fst snd ent_id ent_cls version].
    change (created (Store (<[make_id cls uuid_hex := Row cls 1 data]> (rows s))
                       (versions s)))
      with (created s).
    destruct (as_version _); reflexivity.
Qed.

(** Case analysis on a run of the versioning save: [tac] closes the four
    failing cases, the successful one is left. *)
Ltac versioned_save_cases r Hr Hc Hv data Hd tac :=
  rewrite versioned_save_eq;
  destruct (rows _ !! ent_id _) as [r|] eqn:Hr; [|tac];
  match goal with
  | |- context [bool_decide (row_cls r = ?c)] =>
      destruct (bool_decide_reflect (row_cls r = c)) as [Hc|]; [|tac]
  end;
  match goal with
  | |- context [bool_decide (row_version r = ?l)] =>
      destruct (bool_decide_reflect (row_version r = l)) as [Hv|]; [|tac]
  end;
  cbv zeta; destruct (as_version _) as [data|] eqn:Hd; [|tac].

(** C1. A save attempted with a locked version that differs from the
    persisted version raises [Conflict] (which is neither [DoesNotExist]
    nor a validation error) and returns the store it was given: rows,
    versions and field values, and the log of snapshots are untouched. *)
Theorem stale_save_raises_Conflict e author now uuid_hex s r :
  ent_id e <> "" ->
  rows s !! ent_id e = Some r ->
  row_cls r = ent_cls e ->
  row_version r <> locked_version e ->
  save e author now uuid_hex s
  = (s, Raise (Conflict (locked_version e) (row_version r))) /\
  (forall c a m,
     Conflict (locked_version e) (row_version r) <> DoesNotExist c a /\
     Conflict (locked_version e) (row_version r) <> ValidationError m) /\
  rows (fst (save e author now uuid_hex s)) !! ent_id e = Some r /\
  length (history (fst (save e author now uuid_hex s)) (ent_id e))
  = length (history s (ent_id e)).
Proof.
  intros Hid Hr Hcls Hstale.
  assert (E : save e author now uuid_hex s
              = (s, Raise (Conflict (locked_version e) (row_version r)))).
  { unfold save. rewrite (assign_id_has_id _ _ Hid), versioned_save_eq, Hr.
    rewrite bool_decide_eq_true_2 by assumption.
    rewrite bool_decide_eq_false_2 by assumption. reflexivity. }
  rewrite E. simpl. repeat split; auto; discriminate.
Qed.

(** C8. An entity fetched by [get] or by [select] carries as locked
    version the version of its persisted row; after a successful save the
    locked version is the new version, one more than the one it replaces;
    and the row written holds the class, the version and the field values
    only. *)
Theorem locked_version_is_persisted_version :
  (forall cls id s e,
     snd (fetch cls id s) = Ok e ->
     exists r, rows s !! id = Some r /\ ent_id e = id /\
               locked_version e = row_version r /\ version e = row_version r) /\
  (forall cls s e,
     In e (select cls s) ->
     exists r, rows s !! ent_id e = Some r /\
               locked_version e = row_version r /\ version e = row_version r) /\
  (forall e author now uuid_hex s e',
     snd (save e author now uuid_hex s) = Ok e' ->
     locked_version e' = version e' /\
     version e' = locked_version e + 1 /\
     rows (fst (save e author now uuid_hex s)) !! ent_id e'
     = Some (Row (ent_cls e) (version e') (fields e))).
Proof.
  split; [|split].
  - intros cls id s e. unfold fetch, select_row, mbind, st_bind, mret, st_ret.
    destruct (rows s !! id) as [r|] eqn:Hr; [|discriminate].
    destruct (bool_decide (row_cls r = cls)); [|discriminate].
    simpl. intros [= <-]. exists r. simpl. auto.
  - intros cls s e. unfold select. rewrite <- list_elem_of_In.
    rewrite list_elem_of_fmap. intros ([id r] & -> & Hin).
    apply list_elem_of_In, filter_In in Hin as [Hin _].
    apply list_elem_of_In, elem_of_map_to_list in Hin.
    exists r. simpl. auto.
  - intros e author now uuid_hex s e'. unfold save. cbv zeta.
    destruct (assign_id_keeps e uuid_hex) as (Hc & _ & Hl & Hf).
    rewrite versioned_save_eq, Hc, Hl, Hf.
    destruct (rows s !! _) as [r|]; [|discriminate].
    destruct (bool_decide (row_cls r = ent_cls e)); [|discriminate].
    destruct (bool_decide (row_version r = locked_version e)); [|discriminate].
    cbv zeta. destruct (as_version _); [|discriminate].
    simpl. intros [= <-]. simpl. rewrite lookup_insert_eq. auto.
Qed.

(** ** The version counter and the log *)

Lemma versions_of_snoc rs s v id :
  versions_of (Store rs (versions s ++ [v])) id
  = versions_of s id ++ (if String.eqb (entity_id v) id then [v] else []).
Proof. unfold versions_of. simpl. rewrite List.filter_app. reflexivity. Qed.

Lemma tracks_empty id : tracks empty_store id 0.
Proof. unfold tracks. simpl. rewrite lookup_empty. auto. Qed.

Lemma seqZ_snoc v : 0 <= v -> seqZ 1 (v + 1) = seqZ 1 v ++ [1 + v].
Proof. intros Hv. rewrite seqZ_app by lia. reflexivity. Qed.

Lemma seqZ_cons_inv a n x t :
  seqZ a n = x :: t -> x = a /\ t = seqZ (a + 1) (n - 1).
Proof.
  destruct (Z_lt_le_dec 0 n) as [Hn|Hn].
  - rewrite seqZ_cons by assumption. intros [= <- <-].
    split; [reflexivity|]. f_equal; lia.
  - rewrite seqZ_nil by assumption. discriminate.
Qed.

(** Ordering by sequence changes nothing in a list numbered a, a+1, ... *)
Lemma order_by_sequence_numbered l : forall a n,
  sequence <$> l = seqZ a n -> order_by_sequence l = l.
Proof.
  induction l as [|x l IH]; intros a n Hl; [reflexivity|].
  simpl in Hl. symmetry in Hl. apply seqZ_cons_inv in Hl as [Hx Hl].
  simpl. rewrite (IH (a + 1) (n - 1)) by assumption.
  destruct l as [|y l]; [reflexivity|].
  simpl in Hl. symmetry in Hl. apply seqZ_cons_inv in Hl as [Hy _].
  simpl. destruct (Z.leb_spec (sequence x) (sequence y)); [reflexivity|lia].
Qed.

(** One operation keeps the invariant and adds its own success. *)
Lemma tracks_exec o s id n :
  tracks s id n -> tracks (fst (exec o s)) id (n + saved id o s).
Proof.
  intros Ht. unfold saved.
  destruct o as [cls data author now uuid|e author now uuid].
  - (* create *)
    replace (n + _)%nat with n by (cbv beta iota; lia).
    simpl. rewrite create_eq. cbv zeta.
    destruct (rows s !! make_id cls uuid) as [r0|] eqn:Hr0; [exact Ht|].
    destruct (as_version _) as [data'|]; [|exact Ht].
    unfold tracks in *. simpl fst. cbv beta. rewrite versions_of_snoc.
    unfold rows at 1, entity_id.
    destruct (String.eqb_spec (make_id cls uuid) id) as [E|Hne].
    + subst id. rewrite Hr0 in Ht. destruct Ht as [-> Hh]. rewrite Hh.
      rewrite lookup_insert_eq. split; reflexivity.
    + rewrite lookup_insert_ne by assumption. rewrite app_nil_r. exact Ht.
  - (* save *)
    simpl exec. unfold save. cbv zeta.
    destruct (assign_id_keeps e uuid) as (Hc & _ & Hl & Hf).
    set (e0 := assign_id e uuid) in *.
    versioned_save_cases r Hr Hcls Hv data' Hd
      ltac:(simpl; rewrite Nat.add_0_r; exact Ht).
    unfold tracks in *. simpl fst. simpl snd. cbv beta iota.
    rewrite versions_of_snoc. unfold rows at 1, entity_id. cbn [ent_id].
    destruct (String.eqb_spec (ent_id e0) id) as [E|Hne].
    + subst id. rewrite Hr in Ht. destruct Ht as [Hn Hh].
      rewrite lookup_insert_eq. cbn [row_version].
      rewrite fmap_app, Hh. cbn [fmap list_fmap sequence].
      rewrite <- Hv. split; [lia|].
      rewrite seqZ_snoc by lia. do 2 f_equal. lia.
    + rewrite lookup_insert_ne by assumption.
      rewrite app_nil_r, Nat.add_0_r. exact Ht.
Qed.

Lemma tracks_run ops : forall s id n,
  tracks s id n -> tracks (run ops s) id (n + saves_of id ops s).
Proof.
  induction ops as [|o ops IH]; intros s id n Ht; simpl.
  - now rewrite Nat.add_0_r.
  - rewrite Nat.add_assoc. apply IH. now apply tracks_exec.
Qed.

(** In a reachable store the log holds the snapshots of an entity in
    ascending order already. *)
Lemma history_is_log_order ops id :
  history (run ops empty_store) id = versions_of (run ops empty_store) id.
Proof.
  pose proof (tracks_run ops _ id _ (tracks_empty id)) as Ht.
  unfold tracks in Ht. unfold history.
  destruct (rows (run ops empty_store) !! id) as [r|].
  - destruct Ht as [_ Hh]. eapply order_by_sequence_numbered. exact Hh.
  - destruct Ht as [_ ->]. reflexivity.
Qed.

(** C2. In the store reached from the empty one by any run of creations
    and saves, an entity that exists has version 1 + N, where N counts the
    successful saves of that entity in the run, and its history holds
    exactly the snapshots numbered 1, 2, ..., N + 1, in that order. *)
Theorem version_counts_saves ops id r :
  rows (run ops empty_store) !! id = Some r ->
  let N := saves_of id ops empty_store in
  row_version r = 1 + Z.of_nat N /\
  sequence <$> history (run ops empty_store) id = seqZ 1 (Z.of_nat N + 1) /\
  length (history (run ops empty_store) id) = S N.
Proof.
  intros Hr N. rewrite history_is_log_order.
  pose proof (tracks_run ops _ id _ (tracks_empty id)) as Ht.
  unfold tracks in Ht. rewrite Hr in Ht. simpl in Ht. fold N in Ht.
  destruct Ht as [Hv Hh]. split; [exact Hv|].
  assert (E : sequence <$> versions_of (run ops empty_store) id
              = seqZ 1 (Z.of_nat N + 1)).
  { rewrite Hh, Hv. f_equal. lia. }
  split; [exact E|].
  apply (f_equal length) in E. rewrite length_fmap, length_seqZ in E. lia.
Qed.

(** ** The diff engine *)

Lemma compute_lookup old new tracked F :
  compute old new tracked !! F =
    if mem F tracked && negb (same (dict_get F old) (dict_get F new))
    then Some (dict_get F old, dict_get F new)
    else None.
Proof.
  unfold mem. induction tracked as [|f tracked IH]; cbn [compute existsb].
  - apply lookup_empty.
  - destruct (String.eqb_spec F f) as [->|Hne]; cbn [orb].
    + destruct (same (dict_get f old) (dict_get f new)) eqn:Hd;
        cbn [negb andb].
      * rewrite IH. cbn [negb]. now rewrite andb_false_r.
      * now rewrite lookup_insert_eq.
    + destruct (same (dict_get f old) (dict_get f new)); [exact IH|].
      rewrite lookup_insert_ne by congruence. exact IH.
Qed.

Lemma mem_diffable_fields cls F :
  mem F (diffable_fields cls)
  = mem F (versioned_fields cls) && negb (mem F metadata_fields).
Proof.
  unfold diffable_fields.
  apply eq_true_iff_eq. rewrite andb_true_iff, !mem_true_iff, filter_In.
  reflexivity.
Qed.

Lemma diff_lookup old new F :
  diff old new !! F =
    if mem F (versioned_fields (snap_cls new)) && negb (mem F metadata_fields)
       && negb (same (dict_get F (payload old)) (dict_get F (payload new)))
    then Some (dict_get F (payload old), dict_get F (payload new))
    else None.
Proof. unfold diff. now rewrite compute_lookup, mem_diffable_fields. Qed.

Lemma find_by_sequence (l : list snapshot) old :
  NoDup (sequence <$> l) -> In old l ->
  List.find (fun p => sequence p =? sequence old) l = Some old.
Proof.
  induction l as [|p l IH]; simpl; intros Hnd Hin; [contradiction|].
  apply NoDup_cons in Hnd as [Hp Hnd].
  destruct Hin as [->|Hin].
  - now rewrite Z.eqb_refl.
  - destruct (Z.eqb_spec (sequence p) (sequence old)) as [E|_]; [|auto].
    exfalso. apply Hp. rewrite E. apply list_elem_of_fmap_2.
    now apply list_elem_of_In.
Qed.

(** In a reachable store the snapshots of an entity are numbered apart. *)
Lemma history_NoDup ops id :
  NoDup (sequence <$> history (run ops empty_store) id).
Proof.
  rewrite history_is_log_order.
  pose proof (tracks_run ops _ id _ (tracks_empty id)) as Ht.
  unfold tracks in Ht.
  destruct (rows (run ops empty_store) !! id) as [r|].
  - destruct Ht as [_ ->]. apply NoDup_seqZ.
  - destruct Ht as [_ ->]. constructor.
Qed.

Lemma predecessor_adjacent ops old new :
  In old (versions (run ops empty_store)) ->
  entity_id old = entity_id new ->
  sequence new = sequence old + 1 ->
  predecessor (run ops empty_store) new = Some old.
Proof.
  intros Hin Hid Hseq. unfold predecessor.
  replace (sequence new - 1) with (sequence old) by lia.
  apply find_by_sequence.
  - apply history_NoDup.
  - rewrite history_is_log_order. unfold versions_of.
    apply filter_In. split; [assumption|].
    rewrite Hid. apply String.eqb_refl.
Qed.

(** What [as_version] leaves under each key. *)
Lemma as_version_loop self : forall l acc d f,
  for_each (fun f out => v ← compact_field self f; Ok (dict_set f v out)) l acc
  = Ok d ->
  (In f l -> exists v, compact_field self f = Ok v /\ dict_get f d = Some v) /\
  (~ In f l -> dict_get f d = dict_get f acc).
Proof.
  induction l as [|g l IH]; intros acc d f Hrun; cbn [for_each] in Hrun.
  - inversion Hrun; subst. split; [contradiction|reflexivity].
  - destruct (compact_field self g) as [w|] eqn:Hg; simpl in Hrun;
      [|discriminate].
    destruct (IH _ _ f Hrun) as [Hin Hout].
    destruct (in_dec string_dec f l) as [Hl|Hl].
    + split; [intros _; auto|]. intros Hn. exfalso. apply Hn. now right.
    + split.
      * intros [->|Hf]; [|contradiction].
        exists w. split; [assumption|].
        rewrite (Hout Hl). apply dict_get_set_eq.
      * intros Hn. rewrite (Hout Hl). apply dict_get_set_ne.
        intros ->. apply Hn. now left.
Qed.

Lemma as_version_lookup self d f :
  as_version self = Ok d ->
  In f (versioned_fields (inst_cls self)) ->
  exists v, compact_field self f = Ok v /\ dict_get f d = Some v.
Proof. intros Hrun Hin. now apply (as_version_loop _ _ _ _ _ Hrun). Qed.

(** A payload holds versioned fields only. *)
Lemma as_version_keys self d f :
  as_version self = Ok d ->
  is_Some (dict_get f d) ->
  In f (versioned_fields (inst_cls self)).
Proof.
  intros Hrun [v Hv].
  destruct (in_dec string_dec f (versioned_fields (inst_cls self))) as [|Hn];
    [assumption|].
  apply (as_version_loop _ _ _ _ f Hrun) in Hn. simpl in Hn. congruence.
Qed.

(** The payload of a snapshot does record the version number. *)
Lemma payload_records_version e since author now d :
  as_version (stamped e since author now) = Ok d ->
  In "version" (versioned_fields (ent_cls e)) ->
  class_getattr (ent_cls e) "version_compact" = None ->
  dict_get "version_compact" (fields e) = None ->
  dict_get "version" d = Some (VInt (version e)).
Proof.
  intros Hd Hin Hc Hf.
  destruct (as_version_lookup _ _ _ Hd Hin) as (v & Hv & ->).
  f_equal. unfold compact_field in Hv.
  change ("version" +:+ "_compact") with "version_compact" in Hv.
  assert (Hver : getattr (stamped e since author now) "version"
                 = Ok (VInt (version e))).
  { unfold getattr, stamped, view. cbn [inst_attrs String.eqb Ascii.eqb Bool.eqb].
    rewrite !dict_get_set. cbn [String.eqb Ascii.eqb Bool.eqb]. reflexivity. }
  assert (Hcomp : getattr (stamped e since author now) "version_compact"
                  = Raise (AttributeError "version_compact")).
  { unfold getattr, stamped, view.
    cbn [inst_attrs inst_cls String.eqb Ascii.eqb Bool.eqb].
    rewrite !dict_get_set. cbn [String.eqb Ascii.eqb Bool.eqb].
    now rewrite Hf, Hc. }
  rewrite Hver, Hcomp in Hv. simpl in Hv. congruence.
Qed.

(** Every snapshot of a reachable store was taken from an entity of the
    class its row still has. *)
Lemma snapshot_ok_exec o s :
  (forall v, In v (versions s) -> snapshot_ok s v) ->
  forall v, In v (versions (fst (exec o s))) -> snapshot_ok (fst (exec o s)) v.
Proof.
  intros Hinv. destruct o as [cls data author now uuid|e author now uuid].
  - simpl exec. rewrite create_eq. cbv zeta.
    destruct (rows s !! make_id cls uuid) as [r0|] eqn:Hr0; [exact Hinv|].
    destruct (as_version _) as [data'|] eqn:Hd; [|exact Hinv].
    simpl fst. intros v Hv. cbn [versions] in Hv.
    apply in_app_or in Hv as [Hv|[<-|[]]].
    + destruct (Hinv v Hv) as [He (r & Hr & Hc)]. split; [exact He|].
      exists r. split; [|exact Hc]. cbn [rows].
      rewrite lookup_insert_ne; [exact Hr|]. intros E. congruence.
    + split.
      * eexists _, _, _, _. split; [exact Hd|split; reflexivity].
      * eexists. cbn [rows entity_id]. rewrite lookup_insert_eq.
        split; reflexivity.
  - simpl exec. unfold save. cbv zeta. set (e0 := assign_id e uuid).
    versioned_save_cases r Hr Hc Hlock data' Hd ltac:(exact Hinv).
    simpl fst. intros v Hv. cbn [versions] in Hv.
    apply in_app_or in Hv as [Hv|[<-|[]]].
    + destruct (Hinv v Hv) as [He (r' & Hr' & Hc')]. split; [exact He|].
      cbn [rows].
      destruct (decide (ent_id e0 = entity_id v)) as [E|Hne].
      * rewrite E, lookup_insert_eq. eexists. split; [reflexivity|].
        cbn [row_cls]. rewrite <- E in Hr'. congruence.
      * rewrite lookup_insert_ne by assumption. eauto.
    + split.
      * eexists _, _, _, _. split; [exact Hd|split; reflexivity].
      * eexists. cbn [rows entity_id]. rewrite lookup_insert_eq.
        split; reflexivity.
Qed.

Lemma snapshot_ok_run ops : forall s,
  (forall v, In v (versions s) -> snapshot_ok s v) ->
  forall v, In v (versions (run ops s)) -> snapshot_ok (run ops s) v.
Proof.
  induction ops as [|o ops IH]; intros s Hinv; [exact Hinv|].
  simpl. apply IH. now apply snapshot_ok_exec.
Qed.

Lemma snapshot_ok_reachable ops v :
  In v (versions (run ops empty_store)) -> snapshot_ok (run ops empty_store) v.
Proof. apply snapshot_ok_run. intros ? []. Qed.


(** Under operations that bring no [version_compact], every snapshot of
    a reachable store was taken from an entity that holds none. *)
Lemma snapshot_plain_exec o s :
  dict_get "version_compact" (op_fields o) = None ->
  (forall v, In v (versions s) -> snapshot_plain v) ->
  forall v, In v (versions (fst (exec o s))) -> snapshot_plain v.
Proof.
  intros Hplain Hinv. destruct o as [cls data author now uuid|e author now uuid].
  - simpl exec. rewrite create_eq. cbv zeta.
    destruct (rows s !! make_id cls uuid) as [r0|] eqn:Hr0; [exact Hinv|].
    destruct (as_version _) as [data'|] eqn:Hd; [|exact Hinv].
    simpl fst. intros v Hv. cbn [versions] in Hv.
    apply in_app_or in Hv as [Hv|[<-|[]]]; [now apply Hinv|].
    eexists _, _, _, _. split; [exact Hd|]. repeat split. exact Hplain.
  - simpl exec. unfold save. cbv zeta.
    destruct (assign_id_keeps e uuid) as (_ & _ & _ & Hf).
    set (e0 := assign_id e uuid) in *.
    versioned_save_cases r Hr Hc Hlock data' Hd ltac:(exact Hinv).
    simpl fst. intros v Hv. cbn [versions] in Hv.
    apply in_app_or in Hv as [Hv|[<-|[]]]; [now apply Hinv|].
    eexists _, _, _, _. split; [exact Hd|]. repeat split.
    cbn [fields]. rewrite Hf. exact Hplain.
Qed.

Lemma snapshot_plain_run ops : forall s,
  (forall o, In o ops -> dict_get "version_compact" (op_fields o) = None) ->
  (forall v, In v (versions s) -> snapshot_plain v) ->
  forall v, In v (versions (run ops s)) -> snapshot_plain v.
Proof.
  induction ops as [|o ops IH]; intros s Hops Hinv; [exact Hinv|].
  simpl. apply IH.
  - intros o' Ho'. apply Hops. now right.
  - apply snapshot_plain_exec; [apply Hops; now left|exact Hinv].
Qed.

(** The payload of such a snapshot records its sequence as the version. *)
Lemma payload_version_is_sequence v :
  snapshot_plain v ->
  In "version" (versioned_fields (snap_cls v)) ->
  class_getattr (snap_cls v) "version_compact" = None ->
  dict_get "version" (payload v) = Some (VInt (sequence v)).
Proof.
  intros (e & since & author & now & Hd & Hc & Hv & Hf) Hin Hcomp.
  rewrite <- Hv. rewrite <- Hc in Hin, Hcomp.
  exact (payload_records_version e since author now _ Hd Hin Hcomp Hf).
Qed.

(** In a reachable store the snapshots of an entity are of one class. *)
Lemma snapshots_of_one_class ops v w :
  In v (versions (run ops empty_store)) ->
  In w (versions (run ops empty_store)) ->
  entity_id v = entity_id w ->
  snap_cls v = snap_cls w.
Proof.
  intros Hv Hw Hid.
  destruct (snapshot_ok_reachable ops v Hv) as [_ (r & Hr & Hrc)].
  destruct (snapshot_ok_reachable ops w Hw) as [_ (r' & Hr' & Hrc')].
  rewrite Hid in Hr. congruence.
Qed.


(** C9. Between two adjacent snapshots of an entity the version number
    differs: each payload records the sequence of its snapshot as
    [version], and the two sequences are one apart.  Yet the diff of the
    later snapshot, which is the diff between the two, has no entry for
    [version].  The payload records the version of every class that
    versions it, [compact_field] reading it from the entity unless a
    [version_compact] stands in for it. *)
Theorem version_never_in_diff ops old new :
  (forall o, In o ops -> dict_get "version_compact" (op_fields o) = None) ->
  In old (versions (run ops empty_store)) ->
  In new (versions (run ops empty_store)) ->
  entity_id old = entity_id new ->
  sequence new = sequence old + 1 ->
  In "version" (versioned_fields (snap_cls new)) ->
  class_getattr (snap_cls new) "version_compact" = None ->
  dict_get "version" (payload old) = Some (VInt (sequence old)) /\
  dict_get "version" (payload new) = Some (VInt (sequence new)) /\
  dict_get "version" (payload old) <> dict_get "version" (payload new) /\
  diff_of (run ops empty_store) new = diff old new /\
  diff_of (run ops empty_store) new !! "version" = None.
Proof.
  intros Hops Hold Hnew Hid Hseq Hin Hcomp.
  pose proof (snapshots_of_one_class ops old new Hold Hnew Hid) as Hcls.
  assert (Hplain : forall v, In v (versions (run ops empty_store)) ->
                             snapshot_plain v).
  { apply snapshot_plain_run; [exact Hops|intros ? []]. }
  assert (Ho : dict_get "version" (payload old) = Some (VInt (sequence old))).
  { apply payload_version_is_sequence; [now apply Hplain|now rewrite Hcls..]. }
  assert (Hn : dict_get "version" (payload new) = Some (VInt (sequence new))).
  { apply payload_version_is_sequence; [now apply Hplain|assumption..]. }
  assert (E : diff_of (run ops empty_store) new = diff old new).
  { unfold diff_of. now rewrite (predecessor_adjacent ops old new). }
  split; [exact Ho|]. split; [exact Hn|].
  split; [rewrite Ho, Hn; intros [= H]; lia|].
  split; [exact E|].
  rewrite E, diff_lookup. cbn [mem existsb metadata_fields String.eqb].
  now rewrite andb_false_r.
Qed.

(** * The scenarios of the test suite *)

(** [test_municipality_is_created_with_version_1], [test_get_model_locks_version] *)
Example municipality_is_created_with_version_1 :
  version <$> snd scenario_created = Ok 1 /\
  locked_version <$> snd (fetch Municipality moret_id (fst scenario_created)) = Ok 1 /\
  locked_version <$> select Municipality (fst scenario_created) = [1].
Proof. vm_compute. auto. Qed.

(** [test_municipality_is_versioned] *)
Example municipality_is_versioned :
  version <$> snd scenario_saved = Ok 2 /\
  sequence <$> scenario_snapshots = [1; 2] /\
  getattr (load scenario_v1) "name" = Ok (VStr "Moret-sur-Loing") /\
  getattr (load scenario_v2) "name" = Ok (VStr "Orvanne") /\
  size (diff_of (fst scenario_saved) scenario_v2) = 1%nat /\
  diff_of (fst scenario_saved) scenario_v2 !! "name"
  = Some (Some (VStr "Moret-sur-Loing"), Some (VStr "Orvanne")).
Proof. vm_compute. auto 10. Qed.

(** [test_municipality_diff_contain_only_changed_data] *)
Example municipality_diff_contain_only_changed_data :
  diff_of (fst scenario_saved) scenario_v2 !! "insee" = None /\
  dom (diff_of (fst scenario_saved) scenario_v2) = {["name"]}.
Proof. vm_compute. auto. Qed.

Example scenario_ops_run :
  run scenario_ops empty_store = fst scenario_saved /\
  saves_of moret_id scenario_ops empty_store = 1%nat.
Proof. vm_compute. auto. Qed.

(** * Instances and counterexamples *)

(** A failed lookup never ends without one consultation of the resolver. *)
Lemma coerce_miss_consults_resolver get follow cls id identifier k v :
  snd (coerce get follow cls id identifier)
  = Raise (DoesNotExist (name cls) (NoMatchMsg k v)) ->
  length (List.filter is_follow (fst (coerce get follow cls id identifier))) = 1%nat.
Proof.
  destruct (coerce_cases get follow cls id identifier)
    as [(kind & _ & ->)|(k' & v' & ->)]; [discriminate|].
  destruct (lookup_or_redirect_outcome get follow cls k' v');
    simpl; (discriminate || reflexivity).
Qed.

Lemma stale_save_raises_Conflict_witness :
  save stale_session (VStr "dgfip") 30 "" (fst scenario_saved)
  = (fst scenario_saved, Raise (Conflict 1 2)) /\
  (forall c a m,
     Conflict 1 2 <> DoesNotExist c a /\ Conflict 1 2 <> ValidationError m) /\
  rows (fst (save stale_session (VStr "dgfip") 30 "" (fst scenario_saved)))
    !! moret_id
  = Some orvanne_row /\
  length (history
            (fst (save stale_session (VStr "dgfip") 30 "" (fst scenario_saved)))
            moret_id)
  = length (history (fst scenario_saved) moret_id).
Proof.
  apply (stale_save_raises_Conflict stale_session (VStr "dgfip") 30 ""
           (fst scenario_saved) orvanne_row).
  - discriminate.
  - vm_compute. reflexivity.
  - reflexivity.
  - vm_compute. discriminate.
Defined.

Lemma version_counts_saves_witness :
  row_version orvanne_row
  = 1 + Z.of_nat (saves_of moret_id scenario_ops empty_store) /\
  sequence <$> history (run scenario_ops empty_store) moret_id
  = seqZ 1 (Z.of_nat (saves_of moret_id scenario_ops empty_store) + 1) /\
  length (history (run scenario_ops empty_store) moret_id)
  = S (saves_of moret_id scenario_ops empty_store).
Proof.
  apply (version_counts_saves scenario_ops moret_id).
  vm_compute. reflexivity.
Defined.



Lemma version_never_in_diff_witness :
  dict_get "version" (payload scenario_v1) = Some (VInt (sequence scenario_v1)) /\
  dict_get "version" (payload scenario_v2) = Some (VInt (sequence scenario_v2)) /\
  dict_get "version" (payload scenario_v1)
  <> dict_get "version" (payload scenario_v2) /\
  diff_of (run scenario_ops empty_store) scenario_v2
  = diff scenario_v1 scenario_v2 /\
  diff_of (run scenario_ops empty_store) scenario_v2 !! "version" = None.
Proof.
  apply (version_never_in_diff scenario_ops scenario_v1 scenario_v2).
  - intros o [<-|[<-|[<-|[]]]]; reflexivity.
  - vm_compute. left. reflexivity.
  - vm_compute. right. left. reflexivity.
  - reflexivity.
  - reflexivity.
  - vm_compute. auto 20.
  - reflexivity.
Defined.

Lemma coerce_undeclared_kind_witness :
  coerce (db_get sample_db) (db_follow sample_db) Municipality
         (VStr "fantoir:770011234") None
  = ([], Raise (DoesNotExist (name Municipality) (InvalidIdentifierMsg "fantoir"))) /\
  is_DoesNotExist Municipality
    (DoesNotExist (name Municipality) (InvalidIdentifierMsg "fantoir")) = true.
Proof.
  apply (coerce_undeclared_kind (db_get sample_db) (db_follow sample_db)
           Municipality "fantoir:770011234" "fantoir" [] None);
    reflexivity.
Defined.

(** C4, as stated, fails: the exception raised for an undeclared kind is
    [Municipality.DoesNotExist], the class raised for a plain miss, and
    the [except] clause of [coerce] itself takes both for a miss. *)
Lemma undeclared_kind_raises_DoesNotExist :
  mem "fantoir" (identifiers Municipality ++ ["id"; "pk"]) = false /\
  snd (db_coerce sample_db Municipality (VStr "fantoir:770011234") None)
  = Raise (DoesNotExist "Municipality" (InvalidIdentifierMsg "fantoir")) /\
  snd (db_coerce sample_db Municipality (VStr "insee:00000") None)
  = Raise (DoesNotExist "Municipality" (NoMatchMsg "insee" (VStr "00000"))) /\
  is_DoesNotExist Municipality
    (DoesNotExist "Municipality" (InvalidIdentifierMsg "fantoir")) = true /\
  is_DoesNotExist Municipality
    (DoesNotExist "Municipality" (NoMatchMsg "insee" (VStr "00000"))) = true.
Proof. vm_compute. auto 10. Qed.

(** C5, as stated, fails: on the chain 77001 -> 77002 -> 77316 the retried
    lookup of 77002 misses and [coerce] stops there with [DoesNotExist],
    although one more consultation would reach the live row; on the cycle
    11111 -> 22222 -> 11111 it stops likewise, with [DoesNotExist] and
    after a single consultation. *)
Lemma redirect_chain_is_not_followed :
  db_follow chain_db Municipality "insee" (VStr "77002") = VStr "77316" /\
  db_get chain_db Municipality "insee" (VStr "77316") = Some orvanne /\
  db_coerce chain_db Municipality (VStr "insee:77001") None
  = ([EvGet "Municipality" "insee" (VStr "77001");
      EvFollow "Municipality" "insee" (VStr "77001");
      EvGet "Municipality" "insee" (VStr "77002")],
     Raise (DoesNotExist "Municipality" (NoMatchMsg "insee" (VStr "77002")))) /\
  db_coerce chain_db Municipality (VStr "insee:11111") None
  = ([EvGet "Municipality" "insee" (VStr "11111");
      EvFollow "Municipality" "insee" (VStr "11111");
      EvGet "Municipality" "insee" (VStr "22222")],
     Raise (DoesNotExist "Municipality" (NoMatchMsg "insee" (VStr "22222")))).
Proof. vm_compute. auto 10. Qed.

Lemma coerce_follows_redirect_witness :
  coerce (db_get sample_db) (db_follow sample_db) Municipality
         (VStr ("insee" +:+ ":" +:+ "77999")) None
  = ([EvGet (name Municipality) "insee" (VStr "77999");
      EvFollow (name Municipality) "insee" (VStr "77999");
      EvGet (name Municipality) "insee" (VStr "77316")], Ok orvanne) /\
  coerce (db_get sample_db) (db_follow sample_db) Municipality
         (VStr "77999") (Some "insee")
  = ([EvGet (name Municipality) "insee" (VStr "77999");
      EvFollow (name Municipality) "insee" (VStr "77999");
      EvGet (name Municipality) "insee" (VStr "77316")], Ok orvanne).
Proof.
  apply (coerce_follows_redirect (db_get sample_db) (db_follow sample_db)
           Municipality "insee" "77999" (VStr "77316") orvanne);
    try reflexivity.
  discriminate.
Defined.

Lemma coerce_token_lookup_witness :
  (forall s, contains ":" s = false ->
     exists t r,
       coerce (db_get sample_db) (db_follow sample_db) Municipality (VStr s) None
       = (EvGet (name Municipality) "id" (VStr s) :: t, r) /\
       (forall row, db_get sample_db Municipality "id" (VStr s) = Some row ->
                    t = [] /\ r = Ok row)) /\
  (forall kind v,
     contains ":" kind = false -> contains ":" v = false ->
     mem kind (identifiers Municipality ++ ["id"; "pk"]) = true ->
     exists t r,
       coerce (db_get sample_db) (db_follow sample_db) Municipality
              (VStr (kind +:+ ":" +:+ v)) None
       = (EvGet (name Municipality) kind (VStr v) :: t, r) /\
       (forall row, db_get sample_db Municipality kind (VStr v) = Some row ->
                    t = [] /\ r = Ok row)).
Proof.
  apply (coerce_token_lookup (db_get sample_db) (db_follow sample_db) Municipality).
  reflexivity.
Defined.

(** C7, as stated, fails on a value that holds a colon: the group whose
    IGN identifier is [BD:0042] exists, yet the token [ign:BD:0042] is
    looked up with the value [0042], the text after the last colon, and
    misses; and a token with an undeclared kind is not looked up at all. *)
Lemma token_value_is_cut_at_last_colon :
  db_get sample_db Group "ign" (VStr "BD:0042") = Some impasse /\
  mem "ign" (identifiers Group ++ ["id"; "pk"]) = true /\
  db_coerce sample_db Group (VStr "ign:BD:0042") None
  = ([EvGet "Group" "ign" (VStr "0042"); EvFollow "Group" "ign" (VStr "0042")],
     Raise (DoesNotExist "Group" (NoMatchMsg "ign" (VStr "0042")))) /\
  fst (db_coerce sample_db Municipality (VStr "fantoir:770011234") None) = [].
Proof. vm_compute. auto 10. Qed.

(** The two tokens of the spec, on the sample table. *)
Example coerce_bare_and_namespaced :
  db_coerce sample_db Municipality (VStr "ban-municipality-75") None
  = ([EvGet "Municipality" "id" (VStr "ban-municipality-75")], Ok paris) /\
  db_coerce sample_db Municipality (VStr "insee:75056") None
  = ([EvGet "Municipality" "insee" (VStr "75056")], Ok paris).
Proof. vm_compute. auto. Qed.

Lemma locked_version_is_persisted_version_witness :
  exists r, rows (fst scenario_saved) !! moret_id = Some r /\
            ent_id (load_row moret_id orvanne_row) = moret_id /\
            locked_version (load_row moret_id orvanne_row) = row_version r /\
            version (load_row moret_id orvanne_row) = row_version r.
Proof.
  apply (proj1 locked_version_is_persisted_version Municipality moret_id
           (fst scenario_saved)).
  vm_compute. reflexivity.
Defined.

Lemma views_omit_None_witness :
  exists res rel,
    as_resource rue = Ok res /\ as_relation rue = Ok rel /\
    dict_get "alias" res = None /\ dict_get "alias" rel = None /\
    ((forall k v, dict_get k res = Some v ->
        v <> VNone /\ extended_field rue k = Ok v
        /\ mem k (resource_fields (inst_cls rue)) = true) /\
     (forall k, extended_field rue k = Ok VNone -> dict_get k res = None) /\
     (forall k a, getattr rue k = Ok VNone ->
        getattr rue (k +:+ "_extended") = Raise (AttributeError a) ->
        dict_get k res = None)) /\
    ((forall k v, dict_get k rel = Some v ->
        v <> VNone /\ compact_field rue k = Ok v
        /\ mem k (collection_fields (inst_cls rue)) = true) /\
     (forall k, compact_field rue k = Ok VNone -> dict_get k rel = None) /\
     (forall k a, getattr rue k = Ok VNone ->
        getattr rue (k +:+ "_compact") = Raise (AttributeError a) ->
        dict_get k rel = None)).
Proof.
  eexists _, _.
  split; [vm_compute; reflexivity|].
  split; [vm_compute; reflexivity|].
  split; [reflexivity|]. split; [reflexivity|].
  split.
  - apply (proj1 (views_omit_None rue)). reflexivity.
  - apply (proj2 (views_omit_None rue)). reflexivity.
Defined.

(** * Further properties of [ban/core/resource.py] *)

(** ** The metaclass *)

Lemma mem_app x l1 l2 : mem x (l1 ++ l2) = mem x l1 || mem x l2.
Proof. unfold mem. apply existsb_app. Qed.

Lemma filter_mem_app (excl1 excl2 l : list string) :
  List.filter (fun f => negb (mem f (excl1 ++ excl2))) l
  = List.filter (fun f => negb (mem f excl1))
      (List.filter (fun f => negb (mem f excl2)) l).
Proof.
  induction l as [|f l IH]; [reflexivity|]. simpl.
  rewrite mem_app. destruct (mem f excl2); simpl.
  - rewrite orb_true_r. simpl. exact IH.
  - rewrite orb_false_r. destruct (mem f excl1); simpl; now rewrite IH.
Qed.

(** X1. Inheritance of the versioned fields: the versioned fields of a
    class are its own declared fields that no exclusion list (its own or
    an inherited one) names, followed by the versioned fields of its base
    that its own exclusion list does not name.  So an exclusion declared
    by a base class holds in every class derived from it. *)
Theorem versioned_fields_new_class base n ids own_fields own_excl_coll
    own_excl_ver attrs :
  let cls := new_class base n ids own_fields own_excl_coll own_excl_ver attrs in
  versioned_fields cls
  = List.filter (fun f => negb (mem f (exclude_for_version cls)))
      (default [] own_fields)
    ++ List.filter (fun f => negb (mem f (default [] own_excl_ver)))
         (versioned_fields base) /\
  (forall f, In f (exclude_for_version base) -> ~ In f (versioned_fields cls)) /\
  (forall f, In f (versioned_fields cls) ->
     In f (default [] own_fields) \/ In f (versioned_fields base)).
Proof.
  intros cls.
  assert (E : versioned_fields cls
    = List.filter (fun f => negb (mem f (exclude_for_version cls)))
        (default [] own_fields)
      ++ List.filter (fun f => negb (mem f (default [] own_excl_ver)))
           (versioned_fields base)).
  { unfold versioned_fields, cls, new_class. cbn [resource_fields exclude_for_version].
    destruct own_fields as [own|], own_excl_ver as [excl|];
      cbn [inherit_extend default]; rewrite ?List.filter_app; cbn [List.filter app].
    - f_equal. apply filter_mem_app.
    - f_equal. symmetry. apply forallb_filter_id. apply forallb_forall. reflexivity.
    - apply filter_mem_app.
    - symmetry. apply forallb_filter_id. apply forallb_forall. reflexivity. }
  split; [exact E|]. split.
  - intros f Hex Hin. unfold versioned_fields in Hin.
    apply filter_In in Hin as [_ Hn]. apply negb_true_iff in Hn.
    assert (mem f (exclude_for_version cls) = true); [|congruence].
    apply mem_true_iff. unfold cls, new_class. cbn [exclude_for_version].
    destruct own_excl_ver; cbn [inherit_extend]; [apply in_or_app; now right|assumption].
  - intros f Hin. rewrite E in Hin. apply in_app_or in Hin as [Hin|Hin];
      apply filter_In in Hin as [Hin _]; auto.
Qed.

(** X2. What [as_relation] can hold: apart from the key [resource], every
    key is a resource field of the class that is not excluded for
    collections and whose class attribute exists and is neither a
    many-to-many field, nor a back reference, nor a query. *)
Theorem as_relation_keys self rel k v :
  as_relation self = Ok rel ->
  dict_get k rel = Some v ->
  k = "resource" \/
  (In k (resource_fields (inst_cls self)) /\
   ~ In k (exclude_for_collection (inst_cls self)) /\
   exists a, class_getattr (inst_cls self) k = Some a /\
             a <> ManyToManyField /\ a <> ReverseRelationDescriptor /\
             a <> SelectQueryAttr).
Proof.
  intros Hrel Hk. unfold as_relation in Hrel.
  destruct (keep_not_none_present _ _ _ _ _ _ Hrel Hk) as (Hin & _ & _).
  apply mem_true_iff in Hin. unfold collection_fields in Hin.
  apply in_app_or in Hin as [Hin|[<-|[]]]; [right|now left].
  apply filter_In in Hin as [Hin Hinc]. split; [exact Hin|].
  unfold include_field_for_collection in Hinc.
  destruct (mem k (exclude_for_collection (inst_cls self))) eqn:Hex;
    [discriminate|].
  split.
  - intros H. apply mem_true_iff in H. congruence.
  - destruct (class_getattr (inst_cls self) k) as [a|]; [|discriminate].
    exists a. split; [reflexivity|]. destruct a; try discriminate;
      repeat split; discriminate.
Qed.

(** X3. [as_relation] always names the kind of resource: unless the
    instance carries a [resource_compact] attribute, the key [resource]
    maps to the lower-cased class name. *)
Theorem as_relation_resource self rel a :
  as_relation self = Ok rel ->
  getattr self "resource_compact" = Raise (AttributeError a) ->
  dict_get "resource" rel = Some (VStr (lower (name (inst_cls self)))).
Proof.
  intros Hrel Hc. unfold as_relation in Hrel.
  rewrite (keep_not_none_loop _ _ _ _ _ Hrel "resource").
  assert (Hmem : mem "resource" (collection_fields (inst_cls self)) = true).
  { apply mem_true_iff. unfold collection_fields. apply in_or_app.
    right. now left. }
  rewrite Hmem. unfold compact_field.
  change ("resource" +:+ "_compact") with "resource_compact". rewrite Hc.
  reflexivity.
Qed.

(** X4. [as_version] keeps every versioned field, [None] or not: its keys
    are exactly the versioned fields of the class, each with the value
    [compact_field] computes. *)
Theorem as_version_domain self d :
  as_version self = Ok d ->
  forall f,
    (In f (versioned_fields (inst_cls self)) <-> is_Some (dict_get f d)) /\
    (forall v, dict_get f d = Some v -> compact_field self f = Ok v).
Proof.
  intros Hd f. split; [split|].
  - intros Hin. destruct (as_version_lookup _ _ _ Hd Hin) as (v & _ & Hv). eauto.
  - intros HS. eapply as_version_keys; eauto.
  - intros v Hv.
    assert (Hin : In f (versioned_fields (inst_cls self))).
    { eapply as_version_keys; eauto. }
    destruct (as_version_lookup _ _ _ Hd Hin) as (w & Hw & Hv'). congruence.
Qed.

Lemma as_relation_keys_witness :
  exists rel,
    as_relation rue = Ok rel /\
    dict_get "name" rel = Some (VStr "Rue des Pommes") /\
    ("name" = "resource" \/
     (In "name" (resource_fields (inst_cls rue)) /\
      ~ In "name" (exclude_for_collection (inst_cls rue)) /\
      exists a, class_getattr (inst_cls rue) "name" = Some a /\
                a <> ManyToManyField /\ a <> ReverseRelationDescriptor /\
                a <> SelectQueryAttr)).
Proof.
  eexists. split; [vm_compute; reflexivity|]. split; [reflexivity|].
  eapply (as_relation_keys rue _ "name" (VStr "Rue des Pommes"));
    vm_compute; reflexivity.
Defined.

Lemma as_relation_resource_witness :
  exists rel,
    as_relation rue = Ok rel /\
    dict_get "resource" rel = Some (VStr (lower (name (inst_cls rue)))).
Proof.
  eexists. split; [vm_compute; reflexivity|].
  eapply (as_relation_resource rue _ "resource_compact"); vm_compute; reflexivity.
Defined.

Lemma as_version_domain_witness :
  exists d,
    as_version paris = Ok d /\
    forall f,
      (In f (versioned_fields (inst_cls paris)) <-> is_Some (dict_get f d)) /\
      (forall v, dict_get f d = Some v -> compact_field paris f = Ok v).
Proof.
  eexists. split; [vm_compute; reflexivity|].
  apply (as_version_domain paris). vm_compute; reflexivity.
Defined.

(** ** Identifiers made by [make_id] *)

Lemma lower_ascii_keeps_punctuation c :
  Ascii.eqb (lower_ascii c) "-" = Ascii.eqb c "-" /\
  Ascii.eqb (lower_ascii c) ":" = Ascii.eqb c ":".
Proof.
  destruct c as [[] [] [] [] [] [] [] []]; vm_compute; split; reflexivity.
Qed.

Lemma contains_lower s :
  contains "-" (lower s) = contains "-" s /\
  contains ":" (lower s) = contains ":" s.
Proof.
  induction s as [|c s [IH1 IH2]]; simpl; [split; reflexivity|].
  destruct (lower_ascii_keeps_punctuation c) as [-> ->].
  now rewrite IH1, IH2.
Qed.

Lemma contains_app c s1 s2 :
  contains c (s1 +:+ s2) = contains c s1 || contains c s2.
Proof.
  induction s1 as [|c' s1 IH]; simpl; [reflexivity|].
  now rewrite IH, orb_assoc.
Qed.

Lemma append_sep_inj sep a : forall a' u u',
  contains sep a = false -> contains sep a' = false ->
  a +:+ String sep u = a' +:+ String sep u' -> a = a' /\ u = u'.
Proof.
  induction a as [|c a IH]; intros [|c' a'] u u' Ha Ha' E; simpl in *.
  - inversion E. auto.
  - inversion E; subst. now rewrite Ascii.eqb_refl in Ha'.
  - inversion E; subst. now rewrite Ascii.eqb_refl in Ha.
  - apply orb_false_iff in Ha as [_ Ha]. apply orb_false_iff in Ha' as [_ Ha'].
    inversion E; subst. destruct (IH _ _ _ Ha Ha' H1) as [-> ->]. auto.
Qed.

(** X6. Identifiers made by [make_id] do not collide: for classes whose
    name holds no hyphen, two identifiers are equal only when they were
    made for the same resource kind (the lower-cased class name) from
    the same UUID digits. *)
Theorem make_id_injective cls cls' u u' :
  contains "-" (name cls) = false ->
  contains "-" (name cls') = false ->
  make_id cls u = make_id cls' u' ->
  lower (name cls) = lower (name cls') /\ u = u'.
Proof.
  intros Hc Hc' E. unfold make_id in E.
  change ("-" +:+ u) with (String "-" u) in E.
  change ("-" +:+ u') with (String "-" u') in E.
  simpl in E. inversion E as [E'].
  apply (append_sep_inj "-"); trivial;
    now rewrite (proj1 (contains_lower _)).
Qed.

Lemma make_id_injective_witness :
  lower (name Municipality) = lower (name Municipality) /\
  "0af3" = "0af3".
Proof.
  apply (make_id_injective Municipality Municipality "0af3" "0af3");
    reflexivity.
Defined.

Section MadeIds.

Variable get : model -> string -> value -> option instance.
Variable follow : model -> string -> value -> value.

(** X7. An identifier made by [make_id] is a bare token for [coerce]:
    when neither the class name nor the UUID digits hold a colon,
    [coerce] never rejects it as an invalid identifier and looks the
    whole of it up under [id], whatever kinds the class declares. *)
Theorem coerce_made_id cls u :
  contains ":" (name cls) = false ->
  contains ":" u = false ->
  coerce get follow cls (VStr (make_id cls u)) None
  = lookup_or_redirect get follow cls "id" (VStr (make_id cls u)).
Proof.
  intros Hc Hu.
  assert (Hno : contains ":" (make_id cls u) = false).
  { unfold make_id. rewrite !contains_app, (proj2 (contains_lower _)), Hc, Hu.
    reflexivity. }
  apply coerce_token.
  - reflexivity.
  - left. rewrite (split_no_sep _ _ Hno). split; reflexivity.
  - rewrite (split_no_sep _ _ Hno). reflexivity.
  - rewrite mem_app. simpl. apply orb_true_r.
Qed.

(** X8. An explicit [identifier] argument is taken as it is: the value is
    not parsed, and the identifier is not checked against the declared
    kinds.  One that is not an attribute of the class raises
    [AttributeError] before any storage access; otherwise the first
    storage access is the lookup of the whole value under it. *)
Theorem coerce_explicit_identifier cls id identifier :
  identifier <> "" ->
  (class_getattr cls identifier = None ->
   coerce get follow cls id (Some identifier)
   = ([], Raise (AttributeError identifier))) /\
  (is_Some (class_getattr cls identifier) ->
   exists t r,
     coerce get follow cls id (Some identifier)
     = (EvGet (name cls) identifier id :: t, r)).
Proof.
  intros Hne. rewrite (coerce_explicit get follow cls id identifier Hne).
  split.
  - intros Hnone.
    unfold lookup_or_redirect, cls_get, cls_getattr, lift. rewrite Hnone.
    reflexivity.
  - intros [a Ha].
    unfold lookup_or_redirect, cls_get, cls_getattr, lift. rewrite Ha. simpl.
    destruct (get cls identifier id) as [row|]; simpl; [eauto|].
    rewrite String.eqb_refl.
    destruct (truthy (follow cls identifier id)); simpl; [|eauto].
    destruct (get cls identifier (follow cls identifier id)); simpl; eauto.
Qed.

End MadeIds.

Lemma coerce_made_id_witness :
  coerce (db_get sample_db) (db_follow sample_db) Municipality
         (VStr (make_id Municipality "75")) None
  = lookup_or_redirect (db_get sample_db) (db_follow sample_db) Municipality "id"
      (VStr (make_id Municipality "75")).
Proof.
  apply (coerce_made_id (db_get sample_db) (db_follow sample_db) Municipality "75");
    reflexivity.
Defined.

Lemma coerce_explicit_identifier_witness :
  (class_getattr Municipality "ign" = None ->
   coerce (db_get sample_db) (db_follow sample_db) Municipality
          (VStr "insee:75056") (Some "ign")
   = ([], Raise (AttributeError "ign"))) /\
  (is_Some (class_getattr Municipality "ign") ->
   exists t r,
     coerce (db_get sample_db) (db_follow sample_db) Municipality
            (VStr "insee:75056") (Some "ign")
     = (EvGet (name Municipality) "ign" (VStr "insee:75056") :: t, r)).
Proof.
  apply (coerce_explicit_identifier (db_get sample_db) (db_follow sample_db)
           Municipality (VStr "insee:75056") "ign").
  discriminate.
Defined.

(** * Properties of [ban/db/fields.py] *)

(** X9. [ArrayField.coerce] always returns a list or a tuple.  It leaves
    every non-empty list or tuple as it is, turns every falsy value into
    the empty list (the empty tuple too), wraps any other value into a
    one-element list, and is idempotent.  A tuple comes out only where
    that same non-empty tuple went in. *)
Theorem ArrayField_coerce_sequence value :
  is_sequence (ArrayField.coerce value) = true /\
  (truthy_array value = true -> is_sequence value = true ->
   ArrayField.coerce value = value) /\
  (truthy_array value = false -> ArrayField.coerce value = Other (VList [])) /\
  (forall v, value = Other v -> truthy v = true -> is_list v = false ->
     ArrayField.coerce value = Other (VList [v])) /\
  ArrayField.coerce (ArrayField.coerce value) = ArrayField.coerce value /\
  (forall items, ArrayField.coerce value = Tuple items ->
     value = Tuple items /\ items <> []).
Proof.
  assert (Hsame : forall w,
            truthy_array w = true -> is_sequence w = true ->
            ArrayField.coerce w = w).
  { intros w Ht Hs. unfold ArrayField.coerce. now rewrite Ht, Hs. }
  assert (Hempty : ArrayField.coerce (Other (VList [])) = Other (VList []))
    by reflexivity.
  destruct (truthy_array value) eqn:Ht.
  - destruct (is_sequence value) eqn:Hs.
    + rewrite (Hsame value Ht Hs).
      split; [exact Hs|]. split; [reflexivity|]. split; [discriminate|].
      split; [intros v -> _ Hl; simpl in Hs; congruence|].
      split; [now apply Hsame|].
      intros items ->. split; [reflexivity|].
      intros ->. discriminate.
    + destruct value as [items|v]; [discriminate|].
      assert (E : ArrayField.coerce (Other v) = Other (VList [v])).
      { unfold ArrayField.coerce. now rewrite Ht, Hs. }
      rewrite E.
      split; [reflexivity|]. split; [discriminate|]. split; [discriminate|].
      split; [intros ? [= <-] _ _; reflexivity|].
      split; [reflexivity|discriminate].
  - assert (E : ArrayField.coerce value = Other (VList [])).
    { unfold ArrayField.coerce. now rewrite Ht. }
    rewrite E.
    split; [reflexivity|]. split; [discriminate|]. split; [reflexivity|].
    split; [intros v -> Hv _; simpl in Ht; congruence|].
    split; [reflexivity|discriminate].
Qed.

Lemma len_slice_to n : forall s, len (slice_to n s) = Nat.min n (len s).
Proof.
  intros s. revert n.
  induction s as [|c s IH]; intros n; simpl; [now rewrite Nat.min_0_r|].
  destruct (continuation c) eqn:Hc; simpl.
  - rewrite Hc, (IH n). reflexivity.
  - destruct n as [|n]; simpl; [reflexivity|]. now rewrite Hc, IH.
Qed.

Lemma prefix_slice_to n : forall s, String.prefix (slice_to n s) s = true.
Proof.
  intros s. revert n.
  induction s as [|c s IH]; intros n; simpl; [reflexivity|].
  destruct (continuation c); simpl.
  - rewrite IH. destruct (ascii_dec c c); [reflexivity|contradiction].
  - destruct n as [|n]; simpl; [reflexivity|].
    rewrite IH. destruct (ascii_dec c c); [reflexivity|contradiction].
Qed.

Lemma prefix_refl s : String.prefix s s = true.
Proof.
  induction s as [|c s IH]; simpl; [reflexivity|].
  rewrite IH. destruct (ascii_dec c c); [reflexivity|contradiction].
Qed.

Section Fantoir.

Variable str : value -> string.

Lemma FantoirField_coerce_cases value :
  truthy value = true ->
  (len (str value) = 9%nat /\
   FantoirField.coerce str value = Ok (VStr (str value))) \/
  (len (str value) = 10%nat /\
   FantoirField.coerce str value = Ok (VStr (slice_to 9 (str value)))) \/
  (len (str value) <> 9%nat /\ len (str value) <> 10%nat /\
   exists msg, FantoirField.coerce str value = Raise (ValidationError msg)).
Proof.
  intros Ht. unfold FantoirField.coerce. rewrite Ht. cbn [negb]. cbv zeta.
  destruct (Nat.eqb_spec (len (str value)) 10) as [E10|N10].
  - right; left. split; [assumption|].
    rewrite len_slice_to, E10. reflexivity.
  - destruct (Nat.eqb_spec (len (str value)) 9) as [E9|N9].
    + left. split; [assumption|reflexivity].
    + right; right. cbn [negb]. eauto.
Qed.

(** X10. [FantoirField.coerce] returns [None] for a falsy value and
    otherwise the text of the value when it is 9 characters long, or its
    first 9 characters when it is 10 long; any other length raises
    [ValidationError].  So a result is [None] or a string of exactly 9
    characters, counted as Python counts them, that starts the text of
    the value. *)
Theorem FantoirField_coerce_shape value r :
  FantoirField.coerce str value = Ok r ->
  (truthy value = false /\ r = VNone) \/
  (truthy value = true /\
   (len (str value) = 9%nat /\ r = VStr (str value) \/
    len (str value) = 10%nat /\ r = VStr (slice_to 9 (str value))) /\
   exists s, r = VStr s /\ len s = 9%nat /\
             String.prefix s (str value) = true).
Proof.
  intros H. destruct (truthy value) eqn:Ht.
  - right. split; [reflexivity|].
    destruct (FantoirField_coerce_cases value Ht)
      as [[E9 Hc]|[[E10 Hc]|(N9 & N10 & msg & Hc)]];
      rewrite Hc in H; inversion H; subst.
    + split; [now left|]. exists (str value).
      split; [reflexivity|]. split; [assumption|apply prefix_refl].
    + split; [now right|]. exists (slice_to 9 (str value)).
      split; [reflexivity|].
      split; [rewrite len_slice_to, E10; reflexivity|].
      apply prefix_slice_to.
  - left. unfold FantoirField.coerce in H. rewrite Ht in H.
    inversion H. auto.
Qed.

(** X11. [FantoirField.coerce] fails exactly on a truthy value whose text
    is neither 9 nor 10 characters long, and then with
    [ValidationError]. *)
Theorem FantoirField_coerce_fails value :
  ((exists e, FantoirField.coerce str value = Raise e) <->
   (truthy value = true /\ len (str value) <> 9%nat /\
    len (str value) <> 10%nat)) /\
  (forall e, FantoirField.coerce str value = Raise e ->
     exists msg, e = ValidationError msg).
Proof.
  destruct (truthy value) eqn:Ht.
  - destruct (FantoirField_coerce_cases value Ht)
      as [[E9 Hc]|[[E10 Hc]|(N9 & N10 & msg & Hc)]]; rewrite Hc.
    + split; [split|]; [intros [e He]; discriminate|
                        intros (_ & N & _); contradiction|discriminate].
    + split; [split|]; [intros [e He]; discriminate|
                        intros (_ & _ & N); contradiction|discriminate].
    + split; [split; eauto|]. intros e He. inversion He. eauto.
  - unfold FantoirField.coerce. rewrite Ht. simpl.
    split; [split|]; [intros [e He]; discriminate|
                      intros (F & _); discriminate|discriminate].
Qed.

(** X12. When [str] leaves strings as they are, [FantoirField.coerce] is
    idempotent: it returns its own results unchanged. *)
Theorem FantoirField_coerce_idempotent value r :
  (forall s, str (VStr s) = s) ->
  FantoirField.coerce str value = Ok r ->
  FantoirField.coerce str r = Ok r.
Proof.
  intros Hstr H.
  assert (Hnine : forall s, len s = 9%nat ->
            FantoirField.coerce str (VStr s) = Ok (VStr s)).
  { intros s Hlen.
    assert (Ht : truthy (VStr s) = true) by (destruct s; [discriminate|reflexivity]).
    destruct (FantoirField_coerce_cases (VStr s) Ht)
      as [[_ Hc]|[[E10 _]|(N9 & _)]]; rewrite Hstr in *;
      [exact Hc|congruence|contradiction]. }
  destruct (truthy value) eqn:Ht.
  - destruct (FantoirField_coerce_cases value Ht)
      as [[E9 Hc]|[[E10 Hc]|(_ & _ & msg & Hc)]];
      rewrite Hc in H; inversion H; subst r; apply Hnine;
      [exact E9|rewrite len_slice_to, E10; reflexivity].
  - unfold FantoirField.coerce in H. rewrite Ht in H. inversion H. reflexivity.
Qed.

End Fantoir.

(** A code of 10 characters, the last of which takes two bytes: it is cut
    to its first 9 characters. *)
Lemma FantoirField_coerce_shape_witness :
  (truthy (VStr "750561234é") = false /\ VStr "750561234" = VNone) \/
  (truthy (VStr "750561234é") = true /\
   (len (str_scalar (VStr "750561234é")) = 9%nat /\
    VStr "750561234" = VStr (str_scalar (VStr "750561234é")) \/
    len (str_scalar (VStr "750561234é")) = 10%nat /\
    VStr "750561234" = VStr (slice_to 9 (str_scalar (VStr "750561234é")))) /\
   exists s, VStr "750561234" = VStr s /\ len s = 9%nat /\
             String.prefix s (str_scalar (VStr "750561234é")) = true).
Proof.
  apply (FantoirField_coerce_shape str_scalar (VStr "750561234é")).
  reflexivity.
Defined.

(** A code of 9 characters, the last of which takes two bytes: it is
    returned whole, the first time and again. *)
Lemma FantoirField_coerce_idempotent_witness :
  FantoirField.coerce str_scalar (VStr "75056123é") = Ok (VStr "75056123é").
Proof.
  apply (FantoirField_coerce_idempotent str_scalar (VStr "75056123é"));
    reflexivity.
Defined.

Section ForeignKeys.

Variable get : model -> string -> value -> option instance.
Variable follow : model -> string -> value -> value.
Variable super_coerce : value -> outcome value.

#[local] Abbreviation fk_coerce := (ForeignKeyField.coerce get follow super_coerce).
#[local] Abbreviation m2m_coerce := (ManyToManyField.coerce get follow super_coerce).

Lemma fio_bind_ret {A B : Type} (a : A) (k : A -> fio B) : (mret a ≫= k) = k a.
Proof.
  unfold mbind, fio_bind, mret, fio_ret. destruct (k a) as [t r]. reflexivity.
Qed.

(** X13. [ForeignKeyField.coerce] before any lookup: a falsy value gives
    [None] and a non-empty dict without [id] raises [KeyError], both
    without storage access; a dict whose [id] is truthy and not itself a
    dict is coerced exactly as that [id] is. *)
Theorem ForeignKeyField_coerce_dict self :
  (forall value, truthy value = false -> fk_coerce self value = ([], Returns VNone)) /\
  (forall d, d <> [] -> dict_get "id" d = None ->
     fk_coerce self (VDict d) = ([], Raises (KeyError "id"))) /\
  (forall d id, dict_get "id" d = Some id -> truthy id = true ->
     (forall d', id <> VDict d') ->
     fk_coerce self (VDict d) = fk_coerce self id).
Proof.
  split; [|split].
  - intros value Ht. unfold ForeignKeyField.coerce. now rewrite Ht.
  - intros d Hne Hid. unfold ForeignKeyField.coerce, subscript.
    destruct d; [contradiction|]. cbn [truthy negb]. now rewrite Hid.
  - intros d id Hid Ht Hnd. unfold ForeignKeyField.coerce at 1, subscript.
    destruct d; [discriminate|]. cbn [truthy negb]. rewrite Hid, fio_bind_ret.
    unfold ForeignKeyField.coerce. rewrite Ht. cbn [negb].
    destruct id; try (rewrite fio_bind_ret; reflexivity).
    now specialize (Hnd d0).
Qed.

(** X14. A foreign key given as a token [kind:value] of a declared kind
    of the related resource: when a row holds the value under that kind,
    [ForeignKeyField.coerce] makes this one lookup and hands the row's
    [pk] to peewee; when no row holds it and no redirect is known, the
    [DoesNotExist] of the related class passes through and peewee's
    [coerce] is not reached. *)
Theorem ForeignKeyField_coerce_token self kind v a :
  ForeignKeyField.rel_has_coerce self = true ->
  contains ":" kind = false -> contains ":" v = false ->
  mem kind (identifiers (ForeignKeyField.rel_model self) ++ ["id"; "pk"]) = true ->
  class_getattr (ForeignKeyField.rel_model self) kind = Some a ->
  let cls := ForeignKeyField.rel_model self in
  let token := VStr (kind +:+ ":" +:+ v) in
  (forall row pk,
     get cls kind (VStr v) = Some row -> getattr row "pk" = Ok pk ->
     fk_coerce self token = ([EvGet (name cls) kind (VStr v)], super_coerce pk)) /\
  (get cls kind (VStr v) = None -> truthy (follow cls kind (VStr v)) = false ->
   fk_coerce self token
   = ([EvGet (name cls) kind (VStr v); EvFollow (name cls) kind (VStr v)],
      Raises (Core (DoesNotExist (name cls) (NoMatchMsg kind (VStr v)))))).
Proof.
  intros Hhas Hk Hv Hmem Ha cls token.
  change (class_getattr cls kind = Some a) in Ha.
  assert (Hsplit := split_kind_value kind v Hk Hv).
  assert (Ht : truthy token = true).
  { unfold token. destruct kind; reflexivity. }
  assert (Hc : coerce get follow cls token None
               = lookup_or_redirect get follow cls kind (VStr v)).
  { apply coerce_token; [reflexivity| |now rewrite Hsplit|assumption].
    right. exists []. now rewrite Hsplit. }
  assert (Hfk : fk_coerce self token
    = (value ← (row ← core (lookup_or_redirect get follow cls kind (VStr v));
                mret (obj row));
       value ← match value with
               | VObj c a => core (lift (getattr (Instance c a) "pk"))
               | _ => mret value
               end;
       ([], super_coerce value))).
  { unfold ForeignKeyField.coerce. rewrite Ht. cbn [negb].
    unfold token at 1. rewrite fio_bind_ret, Hhas. fold cls. now rewrite Hc. }
  rewrite Hfk.
  unfold lookup_or_redirect, cls_get, cls_follow, cls_getattr, lift.
  rewrite Ha. split.
  - intros [c attrs] pk Hget Hpk. rewrite Hget. simpl.
    unfold obj. simpl. rewrite Hpk. simpl.
    destruct (super_coerce pk); reflexivity.
  - intros Hget Hf. rewrite Hget. simpl. rewrite String.eqb_refl. simpl.
    rewrite Hf. reflexivity.
Qed.

Lemma comprehension_app {A B : Type} (f : A -> fio B) pre : forall post,
  comprehension f (pre ++ post)
  = (ys ← comprehension f pre; zs ← comprehension f post; mret (ys ++ zs)).
Proof.
  induction pre as [|x pre IH]; intros post.
  - change (comprehension f ([] ++ post)) with (comprehension f post).
    change (comprehension f []) with (mret [] : fio (list B)).
    rewrite fio_bind_ret.
    destruct (comprehension f post) as [t [zs|e]]; simpl;
      [rewrite app_nil_r|]; reflexivity.
  - simpl. rewrite IH. destruct (f x) as [t [y|e]]; simpl; [|reflexivity].
    destruct (comprehension f pre) as [t1 [ys|e]]; simpl; [|reflexivity].
    destruct (comprehension f post) as [t2 [zs|e]]; simpl;
      rewrite ?app_nil_r, ?app_assoc; reflexivity.
Qed.

Lemma comprehension_all {A B : Type} (f : A -> fio B) items oks :
  Forall2 (fun item ok => f item = (fst ok, Returns (snd ok))) items oks ->
  comprehension f items = (concat (List.map fst oks), Returns (List.map snd oks)).
Proof.
  induction 1 as [|item [t y] items oks Hf _ IH]; simpl; [reflexivity|].
  simpl in Hf. rewrite Hf, IH. simpl. now rewrite app_nil_r.
Qed.

(** X15. [ManyToManyField.coerce] resolves the items in order: when every
    item resolves, peewee receives the rows in the order of the items and
    the lookups are those of the items, one after the other; at the first
    item that fails, its exception is raised as it is, the items after it
    are not looked up and peewee's [coerce] is not reached. *)
Theorem ManyToManyField_coerce_in_order self items oks :
  let resolve item := coerce get follow (ManyToManyField.rel_model self) item None in
  Forall2 (fun item ok => resolve item = (fst ok, Ok (snd ok))) items oks ->
  (items <> [] ->
   m2m_coerce self (VList items)
   = (concat (List.map fst oks),
      super_coerce (VList (List.map obj (List.map snd oks))))) /\
  (forall bad t e rest,
     resolve bad = (t, Raise e) ->
     m2m_coerce self (VList (items ++ bad :: rest))
     = (concat (List.map fst oks) ++ t, Raises (Core e))).
Proof.
  intros resolve Hall. subst resolve. cbv beta in *.
  set (rel := ManyToManyField.rel_model self) in *.
  assert (Hall' : Forall2 (fun item ok =>
            core (coerce get follow rel item None) = (fst ok, Returns (snd ok)))
            items oks).
  { eapply Forall2_impl; [exact Hall|]. intros item ok H. cbv beta in H.
    now rewrite H. }
  pose proof (comprehension_all
                (fun item => core (coerce get follow rel item None)) _ _ Hall') as Hc.
  split.
  - intros Hne. unfold ManyToManyField.coerce.
    destruct items as [|x items]; [contradiction|]. cbn [truthy negb].
    fold rel. rewrite Hc. simpl.
    destruct (super_coerce _); now rewrite app_nil_r.
  - intros bad t e rest Hbad. unfold ManyToManyField.coerce.
    assert (Ht : truthy (VList (items ++ bad :: rest)) = true).
    { destruct items; reflexivity. }
    rewrite Ht. cbn [negb]. fold rel.
    rewrite (comprehension_app (fun item => core (coerce get follow rel item None))), Hc.
    simpl. rewrite Hbad. simpl. reflexivity.
Qed.

(** [ManyToManyField.coerce] turns every falsy value into the empty list
    without storage access, and treats a truthy value that is not a list
    as the list of that one value. *)
Lemma ManyToManyField_coerce_scalar self value :
  (truthy value = false -> m2m_coerce self value = ([], Returns (VList []))) /\
  (truthy value = true -> is_list value = false ->
   m2m_coerce self value = m2m_coerce self (VList [value])).
Proof.
  unfold ManyToManyField.coerce. split.
  - now intros ->.
  - intros -> Hl. destruct value; try discriminate; reflexivity.
Qed.

End ForeignKeys.

Lemma ForeignKeyField_coerce_token_witness :
  let self := ForeignKeyField.Make Municipality true in
  let run := ForeignKeyField.coerce (db_get sample_db) (db_follow sample_db) Returns self in
  (forall row pk,
     db_get sample_db Municipality "insee" (VStr "75056") = Some row ->
     getattr row "pk" = Ok pk ->
     run (VStr "insee:75056")
     = ([EvGet "Municipality" "insee" (VStr "75056")], Returns pk)) /\
  (db_get sample_db Municipality "insee" (VStr "75056") = None ->
   truthy (db_follow sample_db Municipality "insee" (VStr "75056")) = false ->
   run (VStr "insee:75056")
   = ([EvGet "Municipality" "insee" (VStr "75056");
       EvFollow "Municipality" "insee" (VStr "75056")],
      Raises (Core (DoesNotExist "Municipality" (NoMatchMsg "insee" (VStr "75056")))))).
Proof.
  apply (ForeignKeyField_coerce_token (db_get sample_db) (db_follow sample_db)
           Returns (ForeignKeyField.Make Municipality true) "insee" "75056" Field);
    reflexivity.
Defined.

Lemma ManyToManyField_coerce_in_order_witness :
  let self := ManyToManyField.Make Municipality in
  let run := ManyToManyField.coerce (db_get sample_db) (db_follow sample_db) Returns self in
  let items := [VStr "insee:75056"; VStr "ban-municipality-77"] in
  let oks := [([EvGet "Municipality" "insee" (VStr "75056")], paris);
              ([EvGet "Municipality" "id" (VStr "ban-municipality-77")], orvanne)] in
  (items <> [] ->
   run (VList items)
   = (concat (List.map fst oks), Returns (VList (List.map obj (List.map snd oks))))) /\
  (forall bad t e rest,
     coerce (db_get sample_db) (db_follow sample_db) Municipality bad None
     = (t, Raise e) ->
     run (VList (items ++ bad :: rest))
     = (concat (List.map fst oks) ++ t, Raises (Core e))).
Proof.
  apply (ManyToManyField_coerce_in_order (db_get sample_db) (db_follow sample_db)
           Returns (ManyToManyField.Make Municipality)
           [VStr "insee:75056"; VStr "ban-municipality-77"]
           [([EvGet "Municipality" "insee" (VStr "75056")], paris);
            ([EvGet "Municipality" "id" (VStr "ban-municipality-77")], orvanne)]).
  repeat constructor.
Defined.

(** * Properties of [Position.validate] ([ban/core/models.py]) *)

(** X16. Without an update, that is, on a creation or a full
    replacement, [Position.validate] looks at the document alone,
    whatever the instance holds: it reports no error exactly when the
    document gives a truthy name or a truthy center, and otherwise the
    same message under both [center] and [name]. *)
Theorem Position_validate_document_alone validator document instance :
  instance = None \/ Position.update validator = false ->
  let given k := exists v, dict_get k document = Some v /\ truthy v = true in
  (Position.validate validator document instance = Ok [] <->
   given "name" \/ given "center") /\
  (Position.validate validator document instance = Ok [] \/
   Position.validate validator document instance
   = Ok [("center", VStr Position.msg); ("name", VStr Position.msg)]).
Proof.
  intros Hcase given.
  assert (Hd : forall n, exists dflt,
             Position.default_of validator instance n = Ok dflt /\
             truthy dflt = false).
  { intros n. unfold Position.default_of.
    destruct Hcase as [->| ->]; [|destruct instance]; eexists; eauto. }
  unfold Position.validate.
  destruct (Hd "name") as (d1 & -> & Hd1), (Hd "center") as (d2 & -> & Hd2).
  simpl. unfold given.
  destruct (dict_get "name" document) as [v1|];
    destruct (dict_get "center" document) as [v2|];
    try destruct (truthy v1) eqn:H1; try destruct (truthy v2) eqn:H2;
    rewrite ?Hd1, ?Hd2; simpl;
    (split; [split|]);
    try (intros _; solve [left; eauto | right; eauto]);
    try discriminate; try solve [left; reflexivity | right; reflexivity];
    intros [(v & E & Hv)|(v & E & Hv)]; congruence.
Qed.

(** X17. On an update of an existing position, [Position.validate]
    judges the position as the update leaves it: a field the document
    names takes the document's value, even a falsy one, and a field it
    does not name keeps the value of the instance.  No error is reported
    exactly when the name or the center so obtained is truthy. *)
Theorem Position_validate_update validator document instance name center :
  Position.update validator = true ->
  getattr instance "name" = Ok name ->
  getattr instance "center" = Ok center ->
  let updated k old :=
    match dict_get k document with Some v => v | None => old end in
  (Position.validate validator document (Some instance) = Ok [] <->
   truthy (updated "name" name) = true \/ truthy (updated "center" center) = true) /\
  (Position.validate validator document (Some instance) = Ok [] \/
   Position.validate validator document (Some instance)
   = Ok [("center", VStr Position.msg); ("name", VStr Position.msg)]).
Proof.
  intros Hu Hn Hc updated. unfold Position.validate, Position.default_of.
  rewrite Hu, Hn, Hc. simpl. fold (updated "name" name) (updated "center" center).
  destruct (truthy (updated "name" name)), (truthy (updated "center" center));
    simpl; (split; [split|]); auto; try discriminate.
  intros [?|?]; discriminate.
Qed.

Lemma Position_validate_document_alone_witness :
  let validator := Position.Validator false in
  let document := [("name", VStr "Porte A")] in
  let given k := exists v, dict_get k document = Some v /\ truthy v = true in
  (Position.validate validator document None = Ok [] <->
   given "name" \/ given "center") /\
  (Position.validate validator document None = Ok [] \/
   Position.validate validator document None
   = Ok [("center", VStr Position.msg); ("name", VStr Position.msg)]).
Proof.
  apply (Position_validate_document_alone (Position.Validator false)
           [("name", VStr "Porte A")] None).
  left. reflexivity.
Defined.

Lemma Position_validate_update_witness :
  let validator := Position.Validator true in
  let document := [("name", VNone)] in
  let instance := Instance Position [("name", VStr "Porte A"); ("center", VNone)] in
  let updated k old :=
    match dict_get k document with Some v => v | None => old end in
  (Position.validate validator document (Some instance) = Ok [] <->
   truthy (updated "name" (VStr "Porte A")) = true \/
   truthy (updated "center" VNone) = true) /\
  (Position.validate validator document (Some instance) = Ok [] \/
   Position.validate validator document (Some instance)
   = Ok [("center", VStr Position.msg); ("name", VStr Position.msg)]).
Proof.
  apply (Position_validate_update (Position.Validator true) [("name", VNone)]
           (Instance Position [("name", VStr "Porte A"); ("center", VNone)])
           (VStr "Porte A") VNone); reflexivity.
Defined.

(** * Mappings in insertion order *)

Lemma assoc_get_set {K V : Type} `{EqDecision K} (k k' : K) (v : V) d :
  assoc_get k (assoc_set k' v d)
  = if decide (k = k') then Some v else assoc_get k d.
Proof.
  induction d as [|[k0 v0] d IH]; simpl.
  - destruct (decide (k = k')); reflexivity.
  - destruct (decide (k' = k0)) as [->|Hne]; simpl.
    + destruct (decide (k = k0)); reflexivity.
    + destruct (decide (k = k0)) as [->|Hne'].
      * destruct (decide (k0 = k')); [congruence|reflexivity].
      * exact IH.
Qed.

Lemma assoc_get_app {K V : Type} `{EqDecision K} (k : K) (d1 d2 : list (K * V)) :
  assoc_get k (d1 ++ d2)
  = match assoc_get k d1 with Some v => Some v | None => assoc_get k d2 end.
Proof.
  induction d1 as [|[k0 v0] d1 IH]; simpl; [reflexivity|].
  destruct (decide (k = k0)); [reflexivity|exact IH].
Qed.

(** [d.update(other)]: for each key the last pair of [other] wins, and the
    keys [other] does not name keep their value. *)
Lemma assoc_get_update {K V : Type} `{EqDecision K} (k : K) (other : list (K * V)) :
  forall d,
    assoc_get k (assoc_update d other)
    = match assoc_get k (List.rev other) with
      | Some v => Some v
      | None => assoc_get k d
      end.
Proof.
  unfold assoc_update.
  induction other as [|[k0 v0] other IH]; intros d; simpl; [reflexivity|].
  rewrite IH, assoc_get_app, assoc_get_set. simpl.
  destruct (assoc_get k (List.rev other)); [reflexivity|].
  destruct (decide (k = k0)); reflexivity.
Qed.

Lemma assoc_get_None {K V : Type} `{EqDecision K} (k : K) (d : list (K * V)) :
  assoc_get k d = None <-> ~ In k (List.map fst d).
Proof.
  induction d as [|[k0 v0] d IH]; simpl; [tauto|].
  destruct (decide (k = k0)) as [->|Hne].
  - split; [discriminate|]. intros Hn. exfalso. apply Hn. now left.
  - rewrite IH. split; [intros Hn [E|Hin]; [congruence|contradiction]|tauto].
Qed.

Lemma assoc_get_In {K V : Type} `{EqDecision K} (k : K) (v : V) d :
  assoc_get k d = Some v -> In (k, v) d.
Proof.
  induction d as [|[k0 v0] d IH]; simpl; [discriminate|].
  destruct (decide (k = k0)) as [->|Hne].
  - intros E. inversion E. now left.
  - intros E. right. now apply IH.
Qed.

Lemma assoc_get_NoDup {K V : Type} `{EqDecision K} (k : K) (v : V) d :
  List.NoDup (List.map fst d) -> In (k, v) d -> assoc_get k d = Some v.
Proof.
  induction d as [|[k0 v0] d IH]; simpl; [contradiction|].
  intros Hnd Hin. apply List.NoDup_cons_iff in Hnd as [Hn Hnd].
  destruct Hin as [E|Hin].
  - inversion E; subst. destruct (decide (k = k)); [reflexivity|contradiction].
  - destruct (decide (k = k0)) as [->|Hne]; [|now apply IH].
    exfalso. apply Hn. apply List.in_map_iff. now exists (k0, v).
Qed.

Lemma assoc_get_rev {K V : Type} `{EqDecision K} (k : K) (d : list (K * V)) :
  List.NoDup (List.map fst d) -> assoc_get k (List.rev d) = assoc_get k d.
Proof.
  intros Hnd.
  destruct (assoc_get k d) as [v|] eqn:E.
  - apply assoc_get_NoDup.
    + rewrite List.map_rev. now apply List.NoDup_rev.
    + apply List.in_rev. rewrite List.rev_involutive. now apply assoc_get_In.
  - apply assoc_get_None. rewrite List.map_rev, <- List.in_rev.
    now apply assoc_get_None.
Qed.

Lemma assoc_set_keys {K V : Type} `{EqDecision K} (k : K) (v : V) d :
  List.map fst (assoc_set k v d)
  = match assoc_get k d with
    | Some _ => List.map fst d
    | None => List.map fst d ++ [k]
    end.
Proof.
  induction d as [|[k0 v0] d IH]; simpl; [reflexivity|].
  destruct (decide (k = k0)) as [->|Hne]; simpl; [reflexivity|].
  rewrite IH. destruct (assoc_get k d); reflexivity.
Qed.

Lemma assoc_set_NoDup {K V : Type} `{EqDecision K} (k : K) (v : V) d :
  List.NoDup (List.map fst d) -> List.NoDup (List.map fst (assoc_set k v d)).
Proof.
  intros Hnd. rewrite assoc_set_keys.
  destruct (assoc_get k d) eqn:E; [assumption|].
  apply assoc_get_None in E.
  apply List.NoDup_app; [assumption|repeat constructor; simpl; tauto|].
  intros x Hx [<-|[]]. contradiction.
Qed.

Lemma assoc_update_NoDup {K V : Type} `{EqDecision K} (other : list (K * V)) :
  forall d, List.NoDup (List.map fst d) ->
            List.NoDup (List.map fst (assoc_update d other)).
Proof.
  unfold assoc_update.
  induction other as [|[k v] other IH]; intros d Hnd; simpl; [assumption|].
  apply IH. now apply assoc_set_NoDup.
Qed.

(** * Properties of [ban/commands/__init__.py] *)

Lemma zip_longest_combine {A : Type} (fill : A) (l1 : list A) : forall l2,
  (length l2 <= length l1)%nat ->
  Command.zip_longest fill l1 l2
  = List.combine l1 (l2 ++ List.repeat fill (length l1 - length l2)).
Proof.
  induction l1 as [|x l1 IH]; intros [|y l2] Hlen; simpl in *;
    try reflexivity; try lia.
  - f_equal. rewrite (IH [] ltac:(simpl; lia)). simpl.
    now rewrite Nat.sub_0_r.
  - f_equal. apply IH. lia.
Qed.

Lemma combine_app_same_length {A B : Type} (l1 l1' : list A) :
  forall (l2 l2' : list B),
    length l1 = length l2 ->
    List.combine (l1 ++ l1') (l2 ++ l2')
    = List.combine l1 l2 ++ List.combine l1' l2'.
Proof.
  induction l1 as [|x l1 IH]; intros [|y l2] l2' Hlen; simpl in *;
    try reflexivity; try discriminate.
  f_equal. apply IH. lia.
Qed.

Lemma combine_rev {A B : Type} (l1 : list A) : forall (l2 : list B),
  length l1 = length l2 ->
  List.combine (List.rev l1) (List.rev l2) = List.rev (List.combine l1 l2).
Proof.
  induction l1 as [|x l1 IH]; intros [|y l2] Hlen; simpl in *;
    try reflexivity; try discriminate.
  rewrite <- IH by lia.
  rewrite combine_app_same_length by (rewrite !List.length_rev; lia).
  reflexivity.
Qed.

Lemma rev_repeat {A : Type} (x : A) n : List.rev (List.repeat x n) = List.repeat x n.
Proof.
  induction n as [|n IH]; simpl; [reflexivity|].
  rewrite IH. clear IH. induction n as [|n IH]; simpl; [reflexivity|].
  now rewrite IH.
Qed.

Lemma spec_of_dict (args : list string) : forall (V : list Command.slot) spec_dict,
  List.NoDup args -> length V = length args ->
  (forall x, In x args ->
     assoc_get (Command.Name x) spec_dict
     = assoc_get (Command.Name x) (List.combine (List.map Command.Name args) V)) ->
  mapM (fun x => v ← assoc_get (Command.Name x) spec_dict; Some (x, v)) args
  = Some (List.combine args V).
Proof.
  induction args as [|x args IH]; intros [|v V] d Hnd Hlen Hd; simpl in *;
    try reflexivity; try discriminate.
  apply List.NoDup_cons_iff in Hnd as [Hx Hnd].
  rewrite (Hd x (or_introl eq_refl)).
  destruct (decide (Command.Name x = Command.Name x)); [|contradiction].
  simpl. rewrite (IH V d); [reflexivity|assumption|lia|].
  intros y Hy. rewrite (Hd y (or_intror Hy)).
  destruct (decide (Command.Name y = Command.Name x)) as [E|_]; [|reflexivity].
  inversion E; subst. contradiction.
Qed.

(** X18. [Command.inspect] pairs the defaults with the last arguments:
    when the argument names are distinct and there are no more defaults
    than arguments, the arguments keep their order, the first ones get
    [NO_DEFAULT] and the last ones the defaults, in order. *)
Theorem Command_inspect_aligns_defaults args defaults :
  List.NoDup args ->
  (length (default [] defaults) <= length args)%nat ->
  Command.inspect args defaults
  = Some (List.combine args
            (List.repeat Command.NO_DEFAULT
               (length args - length (default [] defaults))
             ++ List.map Command.Default (default [] defaults))).
Proof.
  intros Hnd Hlen. unfold Command.inspect. cbv zeta. cbn [fst snd].
  set (ds := default [] defaults) in *.
  set (A := List.map Command.Name args).
  set (V := List.repeat Command.NO_DEFAULT (length args - length ds)
            ++ List.map Command.Default ds).
  assert (HV : length V = length args).
  { unfold V. rewrite List.length_app, List.repeat_length, List.length_map. lia. }
  assert (Hpairs : Command.zip_longest Command.NO_DEFAULT (List.rev A)
                     (List.rev (List.map Command.Default ds))
                   = List.rev (List.combine A V)).
  { rewrite zip_longest_combine
      by (rewrite !List.length_rev; unfold A; rewrite !List.length_map; lia).
    rewrite !List.length_rev. unfold A at 2. rewrite !List.length_map.
    rewrite <- (rev_repeat Command.NO_DEFAULT), <- List.rev_app_distr.
    fold V. apply combine_rev. unfold A. rewrite List.length_map. lia. }
  rewrite Hpairs. apply spec_of_dict; [assumption|assumption|].
  intros x _. unfold assoc_of_pairs.
  rewrite assoc_get_update, List.rev_involutive. fold A.
  destruct (assoc_get (Command.Name x) (List.combine A V)); reflexivity.
Qed.

Lemma Command_inspect_aligns_defaults_witness :
  Command.inspect ["path"; "limit"; "dry_run"] (Some [VInt 10; VBool false])
  = Some [("path", Command.NO_DEFAULT); ("limit", Command.Default (VInt 10));
          ("dry_run", Command.Default (VBool false))].
Proof.
  apply (Command_inspect_aligns_defaults ["path"; "limit"; "dry_run"]
           (Some [VInt 10; VBool false])).
  - repeat constructor; simpl; intuition discriminate.
  - simpl. lia.
Defined.

Lemma zip_longest_keys {A : Type} (fill : A) (l1 : list A) : forall l2 x,
  In x l1 -> In x (List.map fst (Command.zip_longest fill l1 l2)).
Proof.
  induction l1 as [|y l1 IH]; intros l2 x Hin; [contradiction|].
  destruct l2 as [|z l2]; simpl; (destruct Hin as [->|Hin]; [now left|right; now apply IH]).
Qed.

Lemma assoc_of_pairs_keys {K V : Type} `{EqDecision K} (k : K) (pairs : list (K * V)) :
  In k (List.map fst pairs) -> is_Some (assoc_get k (assoc_of_pairs pairs)).
Proof.
  intros Hin. unfold assoc_of_pairs. rewrite assoc_get_update.
  destruct (assoc_get k (List.rev pairs)) eqn:E; [eauto|].
  apply assoc_get_None in E. exfalso. apply E.
  rewrite List.map_rev, <- List.in_rev. exact Hin.
Qed.

(** X19. [Command.inspect] never fails on a missing key: whatever the
    arguments and the defaults, it gives one entry per argument, in the
    order of the arguments. *)
Theorem Command_inspect_total args defaults :
  exists spec,
    Command.inspect args defaults = Some spec /\ List.map fst spec = args.
Proof.
  unfold Command.inspect. cbv zeta. cbn [fst snd].
  set (spec_dict := assoc_of_pairs _).
  assert (Hk : forall x, In x args -> is_Some (assoc_get (Command.Name x) spec_dict)).
  { intros x Hx. apply assoc_of_pairs_keys, zip_longest_keys.
    rewrite <- List.in_rev. now apply List.in_map. }
  clearbody spec_dict. induction args as [|x args IH]; simpl.
  - exists []. split; reflexivity.
  - destruct (Hk x (or_introl eq_refl)) as [v ->]. simpl.
    destruct IH as (spec & -> & Hs); [intros y Hy; apply Hk; now right|].
    simpl. eexists. split; [reflexivity|]. simpl. now rewrite Hs.
Qed.

Lemma report_lookup name item _reports n :
  assoc_get n (Command.report name item _reports)
  = if decide (n = name)
    then Some (default [] (assoc_get n _reports) ++ [item])
    else assoc_get n _reports.
Proof.
  unfold Command.report. rewrite assoc_get_set.
  destruct (decide (n = name)) as [->|Hne].
  - destruct (assoc_get name _reports) eqn:E; [now rewrite E|].
    rewrite assoc_get_set. destruct (decide (name = name)); [|contradiction].
    reflexivity.
  - destruct (assoc_get name _reports); [reflexivity|].
    rewrite assoc_get_set. destruct (decide (n = name)); [contradiction|reflexivity].
Qed.

(** X20. [Command.report] groups what is reported by name: after any
    sequence of reports, a name holds the items reported under it, in the
    order they were reported and after the items it held before, and a
    name nothing was reported under holds what it held before. *)
Theorem Command_report_groups calls : forall _reports n,
  let reported :=
    List.map snd (List.filter (fun c => bool_decide (fst c = n)) calls) in
  assoc_get n (fold_left (fun r c => Command.report (fst c) (snd c) r) calls _reports)
  = match reported with
    | [] => assoc_get n _reports
    | _ => Some (default [] (assoc_get n _reports) ++ reported)
    end.
Proof.
  induction calls as [|[name item] calls IH]; intros r n; [reflexivity|].
  cbn [fold_left List.filter fst snd]. rewrite IH, report_lookup.
  destruct (bool_decide_reflect (name = n)) as [->|Hne].
  - destruct (decide (n = n)); [|contradiction]. cbn [List.map snd].
    destruct (List.map snd _) as [|i items]; simpl; [reflexivity|].
    now rewrite <- List.app_assoc.
  - destruct (decide (n = name)); [congruence|]. reflexivity.
Qed.

(** * Properties of [build_resource_schema] ([ban/core/resource.py]) *)

Lemma build_field_listed cls (rs schema : list (string * rules)) name field :
  build_field cls rs schema (name, field)
  = if listed cls (schema_type field) name field
    then assoc_set name (schema_row rs name (schema_type field) field) schema
    else schema.
Proof.
  unfold build_field, listed.
  destruct (mem name (resource_fields cls)); simpl; [|reflexivity].
  destruct (primary_key field); simpl; [reflexivity|].
  destruct (truthy (schema_type field)); reflexivity.
Qed.

(** The entry of a name after the loop: the declared one when no field of
    that name is reached, the row of such a field otherwise. *)
Lemma build_fold_lookup cls (rs : list (string * rules)) n fs :
  forall schema : list (string * rules),
  ((forall field, In (n, field) fs -> listed cls (schema_type field) n field = false) /\
   assoc_get n (fold_left (build_field cls rs) fs schema) = assoc_get n schema) \/
  (exists field,
     In (n, field) fs /\ listed cls (schema_type field) n field = true /\
     assoc_get n (fold_left (build_field cls rs) fs schema)
     = Some (schema_row rs n (schema_type field) field)).
Proof.
  induction fs as [|[name field] fs IH] using List.rev_ind; intros schema.
  - left. split; [intros f []|reflexivity].
  - rewrite List.fold_left_app. cbn [fold_left]. rewrite build_field_listed.
    destruct (decide (n = name)) as [->|Hne].
    + destruct (listed cls (schema_type field) name field) eqn:Hl.
      * right. exists field. split; [apply List.in_or_app; right; now left|].
        split; [assumption|]. rewrite assoc_get_set.
        destruct (decide (name = name)); [reflexivity|contradiction].
      * destruct (IH schema) as [[Hno Hget]|(f & Hin & Hf & Hget)].
        -- left. split; [|assumption]. intros f Hin.
           apply List.in_app_or in Hin as [Hin|[E|[]]]; [now apply Hno|].
           inversion E; subst. assumption.
        -- right. exists f. split; [apply List.in_or_app; now left|]. auto.
    + assert (Hsame : assoc_get n
                (if listed cls (schema_type field) name field
                 then assoc_set name (schema_row rs name (schema_type field) field)
                        (fold_left (build_field cls rs) fs schema)
                 else fold_left (build_field cls rs) fs schema)
              = assoc_get n (fold_left (build_field cls rs) fs schema)).
      { destruct (listed _ _ _ _); [|reflexivity]. rewrite assoc_get_set.
        destruct (decide (n = name)); [contradiction|reflexivity]. }
      rewrite Hsame.
      destruct (IH schema) as [[Hno Hget]|(f & Hin & Hf & Hget)].
      * left. split; [|assumption]. intros f Hin.
        apply List.in_app_or in Hin as [Hin|[E|[]]]; [now apply Hno|].
        inversion E; subst; contradiction.
      * right. exists f. split; [apply List.in_or_app; now left|]. auto.
Qed.

Lemma NoDup_fst_functional {A B : Type} (l : list (A * B)) a b b' :
  List.NoDup (List.map fst l) -> In (a, b) l -> In (a, b') l -> b = b'.
Proof.
  induction l as [|[a0 b0] l IH]; simpl; [contradiction|].
  intros Hnd H1 H2. apply List.NoDup_cons_iff in Hnd as [Hn Hnd].
  assert (Hk : forall x, In (a0, x) l -> False).
  { intros x Hx. apply Hn. apply List.in_map_iff. now exists (a0, x). }
  destruct H1 as [E1|H1], H2 as [E2|H2].
  - congruence.
  - inversion E1; subst. destruct (Hk _ H2).
  - inversion E2; subst. destruct (Hk _ H1).
  - now apply IH.
Qed.

Lemma build_resource_schema_row cls fs (rs : list (string * rules)) n field :
  List.NoDup (List.map fst fs) ->
  In (n, field) fs -> listed cls (schema_type field) n field = true ->
  assoc_get n (build_resource_schema cls fs rs)
  = Some (schema_row rs n (schema_type field) field).
Proof.
  intros Hnd Hin Hl. unfold build_resource_schema.
  destruct (build_fold_lookup cls rs n fs rs) as [[Hno _]|(f & Hin' & _ & Hget)].
  - rewrite (Hno _ Hin) in Hl. discriminate.
  - now rewrite (NoDup_fst_functional _ _ _ _ Hnd Hin Hin').
Qed.

Lemma field_rules_NoDup type_ field :
  List.NoDup (List.map fst (field_rules type_ field)).
Proof.
  unfold field_rules. cbv zeta.
  assert (H0 : List.NoDup (List.map fst
            [("type", Val type_);
             ("required", Val (VBool (negb (null field))));
             ("coerce", CoerceOf field)])).
  { simpl. repeat constructor; simpl; intuition discriminate. }
  repeat match goal with
         | |- List.NoDup (List.map fst (if ?b then _ else _)) => destruct b
         | |- List.NoDup (List.map fst (assoc_set _ _ _)) => apply assoc_set_NoDup
         end; exact H0.
Qed.

Lemma schema_row_NoDup (rs : list (string * rules)) n type_ field :
  List.NoDup (List.map fst (schema_row rs n type_ field)).
Proof.
  unfold schema_row. cbv zeta.
  destruct (truthy_rule _); [apply assoc_set_NoDup|];
    apply assoc_update_NoDup, field_rules_NoDup.
Qed.

Lemma schema_row_lookup (rs : list (string * rules)) n type_ field k :
  let declared := default [] (assoc_get n rs) in
  let updated := assoc_update (field_rules type_ field) declared in
  assoc_get k (schema_row rs n type_ field)
  = if bool_decide (k = "required") && truthy_rule (assoc_get "readonly" updated)
    then Some (Val (VBool false))
    else assoc_get k updated.
Proof.
  unfold schema_row. cbv zeta.
  destruct (truthy_rule _); rewrite ?andb_false_r, ?andb_true_r;
    [|reflexivity].
  rewrite assoc_get_set.
  destruct (decide (k = "required")) as [->|Hne]; [reflexivity|].
  now rewrite bool_decide_eq_false_2.
Qed.

(** X21. [build_resource_schema] alters no entry but those of the fields
    it reaches: a name with no resource field that has a schema type and
    is not the primary key keeps the entry the class declares for it, or
    none; every other name gets the row of such a field. *)
Theorem build_resource_schema_entries cls meta_fields
    (resource_schema : list (string * rules)) n :
  ((forall field, In (n, field) meta_fields ->
      listed cls (schema_type field) n field = false) ->
   assoc_get n (build_resource_schema cls meta_fields resource_schema)
   = assoc_get n resource_schema) /\
  (forall field,
     In (n, field) meta_fields -> listed cls (schema_type field) n field = true ->
     exists field',
       In (n, field') meta_fields /\
       listed cls (schema_type field') n field' = true /\
       assoc_get n (build_resource_schema cls meta_fields resource_schema)
       = Some (schema_row resource_schema n (schema_type field') field')).
Proof.
  unfold build_resource_schema.
  destruct (build_fold_lookup cls resource_schema n meta_fields resource_schema)
    as [[Hno Hget]|(f & Hin & Hl & Hget)]; split.
  - intros _. exact Hget.
  - intros field Hin Hl. rewrite (Hno _ Hin) in Hl. discriminate.
  - intros Hno. rewrite (Hno _ Hin) in Hl. discriminate.
  - intros _ _ _. eauto.
Qed.

(** X22. A field whose class has no [schema_type] is passed over, and
    the field classes of [ban/db/fields.py] have none (they define
    [__schema_type__]): with such fields [build_resource_schema] gives
    back the [resource_schema] of the class as it is. *)
Theorem build_resource_schema_without_schema_type cls meta_fields
    (resource_schema : list (string * rules)) :
  (forall name field,
     In (name, field) meta_fields -> truthy (schema_type field) = false) ->
  build_resource_schema cls meta_fields resource_schema = resource_schema.
Proof.
  unfold build_resource_schema.
  generalize resource_schema at 2 3. intros schema.
  revert schema. induction meta_fields as [|[name field] fs IH]; intros schema Hno;
    [reflexivity|].
  cbn [fold_left]. rewrite build_field_listed. unfold listed.
  rewrite (Hno name field (or_introl eq_refl)), andb_false_r.
  apply IH. intros n f Hin. apply (Hno n f). now right.
Qed.

Lemma build_resource_schema_without_schema_type_witness :
  build_resource_schema Municipality sample_fields sample_schema = sample_schema.
Proof.
  apply (build_resource_schema_without_schema_type Municipality sample_fields
           sample_schema).
  intros name field [E|[E|[E|[E|[]]]]]; inversion E; reflexivity.
Defined.

(** X25. In [BaseResource.__new__] the inherited schema entries win: for
    a name the base class has an entry for, a subclass gets that entry
    and not the one its own [resource_schema] declares; its own entries
    count for the other names only. *)
Theorem inherited_schema_entries_win (own inherited : list (string * rules)) n :
  List.NoDup (List.map fst inherited) ->
  assoc_get n (inherit_update (Some own) inherited)
  = match assoc_get n inherited with
    | Some entry => Some entry
    | None => assoc_get n own
    end.
Proof.
  intros Hnd. unfold inherit_update.
  now rewrite assoc_get_update, (assoc_get_rev _ _ Hnd).
Qed.

Lemma inherited_schema_entries_win_witness :
  assoc_get "id"
    (inherit_update (Some [("id", [("readonly", Val (VBool false))])]) sample_schema)
  = match assoc_get "id" sample_schema with
    | Some entry => Some entry
    | None => assoc_get "id" [("id", [("readonly", Val (VBool false))])]
    end.
Proof.
  apply (inherited_schema_entries_win
           [("id", [("readonly", Val (VBool false))])] sample_schema "id").
  repeat constructor; simpl; intuition discriminate.
Defined.

Lemma schema_row_rebuilt (rs rs' : list (string * rules)) n type_ field :
  assoc_get n rs' = Some (schema_row rs n type_ field) ->
  forall k,
    assoc_get k (schema_row rs' n type_ field)
    = assoc_get k (schema_row rs n type_ field).
Proof.
  intros Hrs'.
  set (row1 := schema_row rs n type_ field) in *.
  assert (Hup : forall k,
            assoc_get k (assoc_update (field_rules type_ field)
                           (default [] (assoc_get n rs')))
            = assoc_get k row1).
  { intros k. rewrite Hrs'. simpl.
    rewrite assoc_get_update, (assoc_get_rev _ _ (schema_row_NoDup rs n type_ field)).
    fold row1. destruct (assoc_get k row1) eqn:E; [reflexivity|].
    unfold row1 in E. rewrite schema_row_lookup in E. cbv zeta in E.
    destruct (_ && _); [discriminate|]. rewrite assoc_get_update in E.
    destruct (assoc_get k (List.rev _)); [discriminate|exact E]. }
  intros k. rewrite schema_row_lookup. cbv zeta. rewrite !Hup.
  unfold row1. rewrite !schema_row_lookup. cbv zeta. simpl.
  destruct (bool_decide (k = "required")); simpl; [|reflexivity].
  destruct (truthy_rule _); reflexivity.
Qed.

(** X26. Building the schema again changes no rule: when the field names
    are distinct, [build_resource_schema] run on its own result gives,
    for every name, an entry with the same rules.  So a subclass that
    adds nothing inherits the rows of its base as they are. *)
Theorem build_resource_schema_again cls meta_fields
    (resource_schema : list (string * rules)) n :
  List.NoDup (List.map fst meta_fields) ->
  let built := build_resource_schema cls meta_fields resource_schema in
  option_Forall2 (fun row' row => forall k, assoc_get k row' = assoc_get k row)
    (assoc_get n (build_resource_schema cls meta_fields built))
    (assoc_get n built).
Proof.
  intros Hnd built.
  destruct (build_fold_lookup cls built n meta_fields built)
    as [[Hno Hget]|(f & Hin & Hl & Hget)].
  - unfold build_resource_schema at 1. rewrite Hget.
    destruct (assoc_get n built); constructor. reflexivity.
  - unfold build_resource_schema at 1. rewrite Hget.
    assert (Hb : assoc_get n built
                 = Some (schema_row resource_schema n (schema_type f) f)).
    { now apply build_resource_schema_row. }
    rewrite Hb. constructor. now apply schema_row_rebuilt.
Qed.

Lemma build_resource_schema_again_witness :
  let built := build_resource_schema Municipality sample_fields sample_schema in
  option_Forall2 (fun row' row => forall k, assoc_get k row' = assoc_get k row)
    (assoc_get "id" (build_resource_schema Municipality sample_fields built))
    (assoc_get "id" built).
Proof.
  apply (build_resource_schema_again Municipality sample_fields sample_schema "id").
  repeat constructor; simpl; intuition discriminate.
Defined.

(** * Properties of [Schema.model_definition] ([ban/http/schema.py]) *)

Lemma define_field_listed cls readonly_fields schema name field :
  Schema.define_field cls readonly_fields schema (name, field)
  = if listed cls (dunder_schema_type field) name field
    then {| Schema.required :=
              if negb (null field) && negb (mem name readonly_fields)
                 && negb (mem name (Schema.required schema))
              then Schema.required schema ++ [name]
              else Schema.required schema;
            Schema.properties :=
              assoc_set name (Schema.field_row (dunder_schema_type field) field)
                (Schema.properties schema);
            Schema.type := Schema.type schema |}
    else schema.
Proof.
  unfold Schema.define_field, listed.
  destruct (mem name (resource_fields cls)); simpl; [|reflexivity].
  destruct (primary_key field); simpl; [reflexivity|].
  destruct (truthy (dunder_schema_type field)); simpl; [|reflexivity].
  destruct (negb (null field) && negb (mem name readonly_fields)
            && negb (mem name (Schema.required schema))); reflexivity.
Qed.

Lemma define_fold_required cls readonly_fields fs : forall init,
  let d := fold_left (Schema.define_field cls readonly_fields) fs init in
  (forall n, In n (Schema.required d) <->
     In n (Schema.required init) \/
     exists field, In (n, field) fs /\
       listed cls (dunder_schema_type field) n field = true /\
       null field = false /\ mem n readonly_fields = false) /\
  (List.NoDup (Schema.required init) -> List.NoDup (Schema.required d)) /\
  Schema.type d = Schema.type init.
Proof.
  induction fs as [|[name field] fs IH] using List.rev_ind; intros init d.
  - subst d. simpl. split; [|auto]. intros n. split; [auto|].
    intros [H|(f & [] & _)]. exact H.
  - subst d. rewrite List.fold_left_app. cbn [fold_left].
    destruct (IH init) as (Hreq & Hnd & Hty).
    set (d0 := fold_left (Schema.define_field cls readonly_fields) fs init) in *.
    rewrite define_field_listed.
    destruct (listed cls (dunder_schema_type field) name field) eqn:Hl.
    + cbn [Schema.required Schema.type]. split; [|split; [|exact Hty]].
      * intros n.
        destruct (negb (null field) && negb (mem name readonly_fields)
                  && negb (mem name (Schema.required d0))) eqn:Hc.
        -- apply andb_true_iff in Hc as [Hc _].
           apply andb_true_iff in Hc as [Hnull Hro].
           apply negb_true_iff in Hnull, Hro.
           rewrite List.in_app_iff, Hreq. split.
           ++ intros [[H|(f & Hin & Hf)]|[<-|[]]].
              ** now left.
              ** right. exists f. split; [apply List.in_or_app; now left|exact Hf].
              ** right. exists field.
                 split; [apply List.in_or_app; right; now left|auto].
           ++ intros [H|(f & Hin & Hf)]; [left; now left|].
              apply List.in_app_or in Hin as [Hin|[E|[]]].
              ** left. right. eauto.
              ** inversion E; subst. right. now left.
        -- rewrite Hreq. split.
           ++ intros [H|(f & Hin & Hf)]; [now left|].
              right. exists f. split; [apply List.in_or_app; now left|exact Hf].
           ++ intros [H|(f & Hin & Hf)]; [now left|].
              apply List.in_app_or in Hin as [Hin|[E|[]]]; [right; eauto|].
              inversion E; subst. destruct Hf as (_ & Hnull & Hro).
              rewrite Hnull, Hro in Hc. simpl in Hc.
              apply negb_false_iff, mem_true_iff in Hc. now apply Hreq.
      * intros Hi. specialize (Hnd Hi).
        destruct (negb (null field) && negb (mem name readonly_fields)
                  && negb (mem name (Schema.required d0))) eqn:Hc; [|exact Hnd].
        apply andb_true_iff in Hc as [_ Hc]. apply negb_true_iff in Hc.
        apply List.NoDup_app; [exact Hnd|repeat constructor; simpl; tauto|].
        intros x Hx [<-|[]]. apply mem_true_iff in Hx. congruence.
    + split; [|split; [exact Hnd|exact Hty]].
      intros n. rewrite Hreq. split.
      * intros [H|(f & Hin & Hf)]; [now left|].
        right. exists f. split; [apply List.in_or_app; now left|exact Hf].
      * intros [H|(f & Hin & Hf)]; [now left|].
        apply List.in_app_or in Hin as [Hin|[E|[]]]; [right; eauto|].
        inversion E; subst. destruct Hf as (Hf & _). congruence.
Qed.

Lemma define_fold_properties cls readonly_fields n fs : forall init,
  ((forall field, In (n, field) fs ->
      listed cls (dunder_schema_type field) n field = false) /\
   assoc_get n (Schema.properties
                  (fold_left (Schema.define_field cls readonly_fields) fs init))
   = assoc_get n (Schema.properties init)) \/
  (exists field,
     In (n, field) fs /\ listed cls (dunder_schema_type field) n field = true /\
     assoc_get n (Schema.properties
                    (fold_left (Schema.define_field cls readonly_fields) fs init))
     = Some (Schema.field_row (dunder_schema_type field) field)).
Proof.
  induction fs as [|[name field] fs IH] using List.rev_ind; intros init.
  - left. split; [intros f []|reflexivity].
  - rewrite List.fold_left_app. cbn [fold_left]. rewrite define_field_listed.
    set (d0 := fold_left (Schema.define_field cls readonly_fields) fs init) in *.
    destruct (listed cls (dunder_schema_type field) name field) eqn:Hl.
    + cbn [Schema.properties]. rewrite assoc_get_set.
      destruct (decide (n = name)) as [->|Hne].
      * right. exists field. split; [apply List.in_or_app; right; now left|auto].
      * destruct (IH init) as [[Hno Hget]|(f & Hin & Hf & Hget)].
        -- left. split; [|exact Hget]. intros f Hin.
           apply List.in_app_or in Hin as [Hin|[E|[]]]; [now apply Hno|].
           inversion E; subst; contradiction.
        -- right. exists f. split; [apply List.in_or_app; now left|auto].
    + destruct (IH init) as [[Hno Hget]|(f & Hin & Hf & Hget)].
      * left. split; [|exact Hget]. intros f Hin.
        apply List.in_app_or in Hin as [Hin|[E|[]]]; [now apply Hno|].
        inversion E; subst; assumption.
      * right. exists f. split; [apply List.in_or_app; now left|auto].
Qed.

(** X27. The [required] list of [Schema.model_definition] has no
    duplicate and holds exactly the names of the resource fields that
    have a schema type, are not the primary key, refuse NULL and are not
    read-only; each of them has a row under [properties]; and the type
    of the definition is always [object], [string] or [null]. *)
Theorem model_definition_required cls readonly_fields meta_fields :
  let d := Schema.model_definition cls readonly_fields meta_fields in
  List.NoDup (Schema.required d) /\
  (forall n, In n (Schema.required d) <->
     exists field, In (n, field) meta_fields /\
       listed cls (dunder_schema_type field) n field = true /\
       null field = false /\ ~ In n readonly_fields) /\
  (forall n, In n (Schema.required d) ->
     is_Some (assoc_get n (Schema.properties d))) /\
  Schema.type d = ["object"; "string"; "null"].
Proof.
  intros d. subst d. unfold Schema.model_definition.
  set (init := {| Schema.required := []; Schema.properties := [];
                  Schema.type := ["object"; "string"; "null"] |}).
  destruct (define_fold_required cls readonly_fields meta_fields init)
    as (Hreq & Hnd & Hty).
  assert (Hiff : forall n,
    In n (Schema.required
            (fold_left (Schema.define_field cls readonly_fields) meta_fields init)) <->
    exists field, In (n, field) meta_fields /\
      listed cls (dunder_schema_type field) n field = true /\
      null field = false /\ ~ In n readonly_fields).
  { intros n. rewrite Hreq. simpl. split.
    - intros [[]|(f & Hin & Hl & Hnull & Hro)]. exists f.
      repeat split; trivial. rewrite <- mem_true_iff. congruence.
    - intros (f & Hin & Hl & Hnull & Hro). right. exists f.
      repeat split; trivial. rewrite <- mem_true_iff in Hro.
      now destruct (mem n readonly_fields). }
  split; [apply Hnd; constructor|]. split; [exact Hiff|]. split; [|exact Hty].
  intros n Hn. apply Hiff in Hn as (f & Hin & Hl & _).
  destruct (define_fold_properties cls readonly_fields n meta_fields init)
    as [[Hno _]|(f' & _ & _ & ->)]; [|eauto].
  rewrite (Hno _ Hin) in Hl. discriminate.
Qed.

Lemma field_row_type type_ field :
  null field = false ->
  dict_get "type" (Schema.field_row type_ field)
  = Some (VList match field_class_of field with
                | ForeignKey _ => [VStr "object"; VStr "string"]
                | _ => [type_]
                end).
Proof.
  intros Hnull. unfold Schema.field_row. rewrite Hnull. cbn [andb negb].
  destruct (dunder_schema_format field), (field_class_of field),
    (bool_decide (type_ = VStr "array")), (unique field),
    (truthy (max_length field)),
    (truthy (if negb (truthy (min_length field))
                && bool_decide (type_ = VStr "string") && true
             then VInt 1 else min_length field)),
    (choices field); reflexivity.
Qed.

Lemma field_row_minLength field :
  null field = false ->
  exists m,
    dict_get "minLength" (Schema.field_row (VStr "string") field) = Some m /\
    truthy m = true /\
    (truthy (min_length field) = false -> m = VInt 1).
Proof.
  intros Hnull. unfold Schema.field_row. rewrite Hnull. cbn [andb negb].
  rewrite (bool_decide_eq_true_2 (VStr "string" = VStr "string") eq_refl).
  rewrite (bool_decide_eq_false_2 (VStr "string" = VStr "array")) by discriminate.
  rewrite !andb_true_r.
  destruct (truthy (min_length field)) eqn:Hm; cbn [negb];
    [exists (min_length field)|exists (VInt 1)];
    rewrite ?Hm; cbn [truthy Z.eqb negb];
    destruct (dunder_schema_format field), (field_class_of field),
      (unique field), (truthy (max_length field)), (choices field);
    (split; [reflexivity|split; [assumption || reflexivity|]]);
    intros; congruence.
Qed.

(** X28. A required property never admits null: when the field names
    are distinct and no schema type is ['null'], the row of a name that
    [model_definition] lists as required has a type list without
    ['null'] (the schema type of the field, or [object] and [string] for
    a foreign key), and if its schema type is [string] it has a truthy
    [minLength], which is 1 when the field gives none. *)
Theorem required_properties_refuse_null cls readonly_fields meta_fields n :
  List.NoDup (List.map fst meta_fields) ->
  (forall name field, In (name, field) meta_fields ->
     dunder_schema_type field <> VStr "null") ->
  In n (Schema.required (Schema.model_definition cls readonly_fields meta_fields)) ->
  exists field row types,
    In (n, field) meta_fields /\ null field = false /\
    assoc_get n (Schema.properties
                   (Schema.model_definition cls readonly_fields meta_fields))
    = Some row /\
    dict_get "type" row = Some (VList types) /\ ~ In (VStr "null") types /\
    (dunder_schema_type field = VStr "string" ->
     exists m, dict_get "minLength" row = Some m /\ truthy m = true /\
               (truthy (min_length field) = false -> m = VInt 1)).
Proof.
  intros Hnd Hty Hn.
  unfold Schema.model_definition in *.
  apply (proj1 (define_fold_required cls readonly_fields meta_fields _)) in Hn
    as [[]|(f & Hin & Hl & Hnull & _)].
  destruct (define_fold_properties cls readonly_fields n meta_fields
              {| Schema.required := []; Schema.properties := [];
                 Schema.type := ["object"; "string"; "null"] |})
    as [[Hno _]|(f' & Hin' & _ & Hget)];
    [rewrite (Hno _ Hin) in Hl; discriminate|].
  pose proof (NoDup_fst_functional _ _ _ _ Hnd Hin Hin') as <-.
  exists f, (Schema.field_row (dunder_schema_type f) f). eexists.
  split; [exact Hin|]. split; [exact Hnull|]. split; [exact Hget|].
  split; [now apply field_row_type|]. split.
  - destruct (field_class_of f); simpl;
      intros [E|H]; try discriminate; try (destruct H as [E|[]]; discriminate);
      try contradiction; symmetry in E; now apply (Hty n f Hin).
  - intros ->. now apply field_row_minLength.
Qed.

Lemma required_properties_refuse_null_witness :
  exists field row types,
    In ("name", field) sample_fields /\ null field = false /\
    assoc_get "name" (Schema.properties
                        (Schema.model_definition Municipality ["id"] sample_fields))
    = Some row /\
    dict_get "type" row = Some (VList types) /\ ~ In (VStr "null") types /\
    (dunder_schema_type field = VStr "string" ->
     exists m, dict_get "minLength" row = Some m /\ truthy m = true /\
               (truthy (min_length field) = false -> m = VInt 1)).
Proof.
  apply (required_properties_refuse_null Municipality ["id"] sample_fields "name").
  - repeat constructor; simpl; intuition discriminate.
  - intros name field [E|[E|[E|[E|[]]]]]; inversion E; discriminate.
  - vm_compute. tauto.
Defined.

(** X29. [Schema.register_endpoint] merges and never replaces: after
    registering a responder under a path, each of the given verbs,
    lower-cased, documents that responder; the verbs registered before
    under the same path and not given now keep their documentation; and
    the other paths are left as they were. *)
Theorem register_endpoint_merges paths path doc methods :
  let paths' := Schema.register_endpoint paths path doc methods in
  (forall other, other <> path -> assoc_get other paths' = assoc_get other paths) /\
  exists definition,
    assoc_get path paths' = Some definition /\
    (forall verb, In verb methods -> assoc_get (lower verb) definition = Some doc) /\
    (forall verb, ~ In verb (List.map lower methods) ->
       assoc_get verb definition
       = assoc_get verb (default [] (assoc_get path paths))).
Proof.
  intros paths'. subst paths'. unfold Schema.register_endpoint. cbv zeta.
  set (pairs := List.map (fun verb => (lower verb, doc)) methods).
  assert (Hkeys : List.map fst pairs = List.map lower methods).
  { unfold pairs. rewrite List.map_map. reflexivity. }
  assert (Hin : forall verb, In verb methods ->
            assoc_get (lower verb) (List.rev pairs) = Some doc).
  { intros verb Hv.
    destruct (assoc_get (lower verb) (List.rev pairs)) as [d|] eqn:E.
    - apply assoc_get_In in E. rewrite <- List.in_rev in E.
      unfold pairs in E. apply List.in_map_iff in E as (x & Ex & _).
      inversion Ex; subst. reflexivity.
    - apply assoc_get_None in E. exfalso. apply E.
      rewrite List.map_rev, <- List.in_rev, Hkeys. now apply List.in_map. }
  assert (Hout : forall verb, ~ In verb (List.map lower methods) ->
            assoc_get verb (List.rev pairs) = None).
  { intros verb Hv. apply assoc_get_None.
    now rewrite List.map_rev, <- List.in_rev, Hkeys. }
  set (definition := assoc_of_pairs pairs).
  assert (HD : forall verb,
            assoc_get verb definition = assoc_get verb (List.rev pairs)).
  { intros verb. unfold definition, assoc_of_pairs. rewrite assoc_get_update.
    destruct (assoc_get verb (List.rev pairs)); reflexivity. }
  assert (HDnd : List.NoDup (List.map fst definition)).
  { apply assoc_update_NoDup. constructor. }
  split.
  - intros other Hne.
    destruct (assoc_get path paths); rewrite assoc_get_set;
      (destruct (decide (other = path)); [contradiction|reflexivity]).
  - destruct (assoc_get path paths) as [registered|] eqn:Hp.
    + eexists. rewrite assoc_get_set.
      destruct (decide (path = path)); [|contradiction].
      split; [reflexivity|]. split.
      * intros verb Hv.
        now rewrite assoc_get_update, (assoc_get_rev _ _ HDnd), HD, (Hin verb Hv).
      * intros verb Hv.
        now rewrite assoc_get_update, (assoc_get_rev _ _ HDnd), HD, (Hout verb Hv).
    + eexists. rewrite assoc_get_set.
      destruct (decide (path = path)); [|contradiction].
      split; [reflexivity|]. split.
      * intros verb Hv. now rewrite HD, (Hin verb Hv).
      * intros verb Hv. now rewrite HD, (Hout verb Hv).
Qed.

(** * [ResourceModel.save]: the identifier is assigned once *)

(** X30. The first statement of [ResourceModel.save] leaves an entity
    with a non-empty identifier: the one it had, if any, and otherwise
    the one [make_id] builds.  Saving again, whatever digits are drawn,
    does not change it. *)
Theorem save_assigns_id_once e uuid_hex uuid_hex' :
  ent_id (assign_id e uuid_hex) <> "" /\
  (ent_id e <> "" -> assign_id e uuid_hex = e) /\
  (ent_id e = "" ->
   ent_id (assign_id e uuid_hex) = make_id (ent_cls e) uuid_hex) /\
  assign_id (assign_id e uuid_hex) uuid_hex' = assign_id e uuid_hex.
Proof.
  assert (Hmade : forall cls u, make_id cls u <> "").
  { intros cls u. unfold make_id. discriminate. }
  assert (H1 : ent_id (assign_id e uuid_hex) <> "").
  { unfold assign_id. simpl.
    destruct (String.eqb_spec (ent_id e) ""); simpl; [apply Hmade|assumption]. }
  split; [exact H1|]. split; [apply assign_id_has_id|]. split.
  - intros E. unfold assign_id. rewrite E. reflexivity.
  - now apply assign_id_has_id.
Qed.
